(** * goblin-forge: accumulation phase classifier and watchlist pipeline

    A shallow embedding of [src/indicators/accumulation_analysis.py]
    (class [AccumulationAnalyzer]) and of the scoring / watchlist layer
    that the test-suite exercises ([tests/test_sabr20.py],
    [tests/test_watchlist.py]).

    Conventions of the embedding.
    - A Python [float] is [float]: NaN, a signed infinity, or a finite
      value carried as an exact rational.  Rounding of finite results is
      not modelled (a quotient of two counts is the exact quotient); sign,
      zero-ness and order against constants are those of the IEEE result.
    - A pandas [Series] of floats is a [list float]; a [DataFrame] is its
      number of rows together with a finite map from column names to
      series.
    - A Python exception is a value of [exception]; code that may raise
      lives in the error monad [result].  Calls to the logger have no
      effect on any value and are left out. *)

From Stdlib Require Import QArith Qminmax ZArith Lia Sorting.Sorted Permutation.
From stdpp Require Import gmap strings list fin_maps.

Local Open Scope Z_scope.
Local Open Scope stdpp_scope.

(** ** Python floats *)

Inductive float : Type :=
| NaN
| Inf (negative : bool)
| Fin (q : Q).

Module Float.

(** [a < b], [a <= b], [a == b] of Python: any comparison with NaN is
    [False]. *)
Definition lt (a b : float) : bool :=
  match a, b with
  | NaN, _ | _, NaN => false
  | Inf true, Inf true => false
  | Inf true, _ => true
  | _, Inf true => false
  | Inf false, _ => false
  | Fin _, Inf false => true
  | Fin x, Fin y => negb (Qle_bool y x)
  end.

Definition le (a b : float) : bool :=
  match a, b with
  | NaN, _ | _, NaN => false
  | Inf true, _ => true
  | _, Inf true => false
  | _, Inf false => true
  | Inf false, Fin _ => false
  | Fin x, Fin y => Qle_bool x y
  end.

Definition eqb (a b : float) : bool :=
  match a, b with
  | Inf s, Inf t => Bool.eqb s t
  | Fin x, Fin y => Qeq_bool x y
  | _, _ => false
  end.

Definition ge (a b : float) : bool := le b a.

(** Sign of a finite value, used for the sign of a quotient. *)
Definition is_neg (q : Q) : bool := negb (Qle_bool 0 q).

(** [a / b] as numpy computes it elementwise. *)
Definition div (a b : float) : float :=
  match a, b with
  | NaN, _ | _, NaN => NaN
  | Inf _, Inf _ => NaN
  | Inf s, Fin y => Inf (xorb s (is_neg y))
  | Fin _, Inf _ => Fin 0
  | Fin x, Fin y =>
      if Qeq_bool y 0 then
        if Qeq_bool x 0 then NaN else Inf (is_neg x)
      else Fin (x / y)
  end.

(** [Series.replace(old, new)] on one cell. *)
Definition replace (old new : float) (a : float) : float :=
  if eqb a old then new else a.

(** [Series.clip(lower, upper)] on one cell: NaN stays NaN. *)
Definition clip (lower upper : float) (a : float) : float :=
  match a with
  | NaN => NaN
  | _ => if lt a lower then lower else if lt upper a then upper else a
  end.

(** [int(x)]: truncation toward zero; raises on NaN and on infinities
    (reported by the caller). *)
Definition trunc (q : Q) : Z := Z.quot (Qnum q) (Z.pos (Qden q)).

(** Equality of floats up to the representation of the rational. *)
Definition equiv (a b : float) : Prop :=
  match a, b with
  | NaN, NaN => True
  | Inf s, Inf t => s = t
  | Fin x, Fin y => (x == y)%Q
  | _, _ => False
  end.

End Float.

(** ** Exceptions and the error monad *)

Inductive value_error : Type :=
| MissingRequiredColumns (missing_cols : gset string)
| InvalidRollingArguments
| NanToInteger.

Inductive exception : Type :=
| ValueError (why : value_error)
| OverflowError
| KeyError (key : string)
| IndexError.

Definition result (A : Type) : Type := exception + A.

Definition raise {A} (e : exception) : result A := inl e.

#[export] Instance result_ret : MRet result := fun _ a => inr a.
#[export] Instance result_bind : MBind result :=
  fun _ _ k m => match m with inl e => inl e | inr a => k a end.

(** [try: body  except Exception as e: handler e]. *)
Definition try_except {A} (body : result A) (handler : exception -> result A)
  : result A :=
  match body with
  | inl e => handler e
  | inr a => inr a
  end.

(** ** Series and data frames *)

Abbreviation Series := (list float).

Record DataFrame : Type := mkDataFrame {
  nrows : nat;
  columns : gmap string Series
}.

(** Every column of a pandas frame has one cell per row. *)
Definition wf_DataFrame (df : DataFrame) : Prop :=
  forall c s, columns df !! c = Some s -> length s = nrows df.

(** [df.empty]: some axis has length 0. *)
Definition df_empty (df : DataFrame) : bool :=
  bool_decide (nrows df = 0%nat) || bool_decide (columns df = ∅).

(** [df[c]]. *)
Definition getitem (df : DataFrame) (c : string) : result Series :=
  match columns df !! c with
  | Some s => mret s
  | None => raise (KeyError c)
  end.

(** [df[c] = s]. *)
Definition setitem (df : DataFrame) (c : string) (s : Series) : DataFrame :=
  mkDataFrame (nrows df) (<[c := s]> (columns df)).

(** [(series < threshold).astype(int)]. *)
Definition below (threshold : Q) (s : Series) : list Z :=
  (fun x => if Float.lt x (Fin threshold) then 1 else 0) <$> s.

Definition sum_Z (l : list Z) : Z := foldr Z.add 0 l.

(** The cells the trailing window ending at bar [i] covers:
    positions [i + 1 - window .. i], cut at the start of the series. *)
Definition trailing {A} (window i : nat) (l : list A) : list A :=
  drop (i + 1 - window) (take (i + 1) l).

(** [flags.rolling(window=window, min_periods=min_periods).sum()]: the
    flags hold no NaN, so a window's number of observations is its
    length; with fewer than [min_periods] of them the cell is NaN. *)
Definition rolling_sum (window min_periods : nat) (flags : list Z) : Series :=
  (fun i =>
     let w := trailing window i flags in
     if (min_periods <=? length w)%nat
     then Fin (inject_Z (sum_Z w))
     else NaN)
  <$> seq 0 (length flags).

(** [df.loc[(a == 0) & (b == 0), col] = 0] on aligned cells. *)
Definition zero_where_both_zero (a b : float) (x : float) : float :=
  if Float.eqb a (Fin 0) && Float.eqb b (Fin 0) then Fin 0 else x.

Fixpoint zip_with3 {A B C D} (f : A -> B -> C -> D)
         (la : list A) (lb : list B) (lc : list C) : list D :=
  match la, lb, lc with
  | a :: la, b :: lb, c :: lc => f a b c :: zip_with3 f la lb lc
  | _, _, _ => []
  end.

(** [flags.rolling(window=..., min_periods=...)]: pandas refuses a
    negative window, a negative [min_periods] and [min_periods > window]
    with a [ValueError].  The window is a mathematical integer here;
    pandas keeps it in a signed 64-bit integer, so the embedding stands
    for windows below 2^63 only. *)
Definition rolling (window min_periods : Z) (flags : list Z) : result Series :=
  if (window <? 0) || (min_periods <? 0) || (window <? min_periods)
  then raise (ValueError InvalidRollingArguments)
  else mret (rolling_sum (Z.to_nat window) (Z.to_nat min_periods) flags).

(** [df.iloc[-1]]: the last row, as a map from column name to cell. *)
Definition iloc_last (df : DataFrame) : result (gmap string float) :=
  if bool_decide (nrows df = 0%nat) then raise IndexError
  else mret (omap (fun s : Series => last s) (columns df)).

(** [row[c]]. *)
Definition row_getitem (row : gmap string float) (c : string) : result float :=
  match row !! c with
  | Some x => mret x
  | None => raise (KeyError c)
  end.

(** [series.tail(n).tolist()]. *)
Definition tail (n : nat) (s : Series) : Series := drop (length s - n) s.

(** [int(x)] on a float. *)
Definition int (x : float) : result Z :=
  match x with
  | NaN => raise (ValueError NanToInteger)
  | Inf _ => raise OverflowError
  | Fin q => mret (Float.trunc q)
  end.

(** A [try] block whose handler returns a value. *)
Definition try_except_value {A} (body : result A) (handler : exception -> A) : A :=
  match body with
  | inl e => handler e
  | inr a => a
  end.

(** ** The analyzer object

    [AccumulationAnalyzer.__init__] copies its attributes from
    [src/config], which fixes the numbers; the embedding keeps them as
    fields, one record per entry of [self.phases] with exactly the keys
    [__init__] stores ([.get(key, default)] on a key that [__init__]
    always stores is the stored value). *)

Inductive Phase : Type := Early | Mid | Late | Breakout | NoPhase.

Definition phase_name (p : Phase) : string :=
  match p with
  | Early => "early" | Mid => "mid" | Late => "late"
  | Breakout => "breakout" | NoPhase => "none"
  end.

#[export] Instance Phase_eq_dec : EqDecision Phase.
Proof. solve_decision. Defined.

Record EarlyDef : Type := mkEarly {
  early_min_ratio : Q;
  early_max_rsi : Q;
  early_points : Z
}.

Record MidDef : Type := mkMid {
  mid_min_ratio : Q;
  mid_max_ratio : Q;
  mid_max_rsi : Q;
  mid_points : Z
}.

Record LateDef : Type := mkLate {
  late_min_ratio : Q;
  late_max_ratio : Q;
  late_min_rsi : Q;
  late_max_rsi : Q;
  late_points : Z
}.

Record BreakoutDef : Type := mkBreakout {
  breakout_min_ratio : Q;
  breakout_max_ratio : Q;
  breakout_min_rsi : Q;
  breakout_points : Z
}.

Record Phases : Type := mkPhases {
  phases_early : EarlyDef;
  phases_mid : MidDef;
  phases_late : LateDef;
  phases_breakout : BreakoutDef
}.

Record AccumulationAnalyzer : Type := mkAnalyzer {
  window : Z;
  stoch_oversold : Q;
  rsi_oversold : Q;
  phases : Phases
}.

(** The ['description'] strings [__init__] writes into [self.phases], and
    the one of the fall-through branch of [classify_phase]. *)
Definition phase_description (p : Phase) : string :=
  match p with
  | Early => "Early Accumulation - Best Entry"
  | Mid => "Mid Accumulation - High Probability"
  | Late => "Late Accumulation - Setup Maturing"
  | Breakout => "Breakout - Confirmed but Late"
  | NoPhase => "No Accumulation Detected"
  end.

(** Modelled from the spec: the values of [src/config] are not part of
    the sources; these are the numbers of the module's docstring (window
    of 50 bars, thresholds 20 and 30, tiers 18/14/10/6). *)
Definition documented_analyzer : AccumulationAnalyzer :=
  {| window := 50;
     stoch_oversold := 20;
     rsi_oversold := 30;
     phases :=
       {| phases_early := mkEarly 5 45 18;
          phases_mid := mkMid 3 5 50 14;
          phases_late := mkLate (3 # 2) 3 40 55 10;
          phases_breakout := mkBreakout (8 # 10) (3 # 2) 50 6 |} |}.

(** *** [calculate_ratio_series] *)

Definition required_cols : list string := ["stoch_rsi"; "rsi"]%string.

(** [if window is None: window = self.window]. *)
Definition window_used (self : AccumulationAnalyzer) (window_arg : option Z) : Z :=
  match window_arg with None => window self | Some w => w end.

Definition calculate_ratio_series
    (self : AccumulationAnalyzer) (df : DataFrame) (window_arg : option Z)
  : result DataFrame :=
  try_except
    (let window := window_used self window_arg in
     let missing_cols : gset string :=
       list_to_set required_cols ∖ dom (columns df) in
     if bool_decide (missing_cols ≠ ∅)
     then raise (ValueError (MissingRequiredColumns missing_cols))
     else
       let df_calc := df in
       stoch_rsi ← getitem df_calc "stoch_rsi";
       let stoch_oversold_flags := below (stoch_oversold self) stoch_rsi in
       rsi ← getitem df_calc "rsi";
       let rsi_oversold_flags := below (rsi_oversold self) rsi in
       stoch_signals ← rolling window (window `div` 2) stoch_oversold_flags;
       let df_calc := setitem df_calc "stoch_signals" stoch_signals in
       rsi_signals ← rolling window (window `div` 2) rsi_oversold_flags;
       let df_calc := setitem df_calc "rsi_signals" rsi_signals in
       num ← getitem df_calc "stoch_signals";
       den ← getitem df_calc "rsi_signals";
       let df_calc :=
         setitem df_calc "accumulation_ratio"
           (zip_with Float.div num
              (Float.replace (Fin 0) (Fin (1 # 10)) <$> den)) in
       a ← getitem df_calc "stoch_signals";
       b ← getitem df_calc "rsi_signals";
       x ← getitem df_calc "accumulation_ratio";
       let df_calc :=
         setitem df_calc "accumulation_ratio"
           (zip_with3 zero_where_both_zero a b x) in
       x ← getitem df_calc "accumulation_ratio";
       let df_calc :=
         setitem df_calc "accumulation_ratio"
           (Float.clip (Fin 0) (Fin 20) <$> x) in
       mret df_calc)
    (fun e => raise e).

(** *** [classify_phase] *)

Record PhaseInfo : Type := mkPhaseInfo {
  info_phase : Phase;
  info_points : Z;
  info_description : string
}.

Definition classify_phase
    (self : AccumulationAnalyzer) (ratio rsi : float) : PhaseInfo :=
  let early := phases_early (phases self) in
  if Float.ge ratio (Fin (early_min_ratio early))
     && Float.le rsi (Fin (early_max_rsi early))
  then mkPhaseInfo Early (early_points early) (phase_description Early)
  else
    let mid_phase := phases_mid (phases self) in
    if (Float.le (Fin (mid_min_ratio mid_phase)) ratio
        && Float.lt ratio (Fin (mid_max_ratio mid_phase)))
       && Float.le rsi (Fin (mid_max_rsi mid_phase))
    then mkPhaseInfo Mid (mid_points mid_phase) (phase_description Mid)
    else
      let late_phase := phases_late (phases self) in
      if (Float.le (Fin (late_min_ratio late_phase)) ratio
          && Float.lt ratio (Fin (late_max_ratio late_phase)))
         && (Float.le (Fin (late_min_rsi late_phase)) rsi
             && Float.le rsi (Fin (late_max_rsi late_phase)))
      then mkPhaseInfo Late (late_points late_phase) (phase_description Late)
      else
        let breakout_phase := phases_breakout (phases self) in
        if (Float.le (Fin (breakout_min_ratio breakout_phase)) ratio
            && Float.lt ratio (Fin (breakout_max_ratio breakout_phase)))
           && Float.ge rsi (Fin (breakout_min_rsi breakout_phase))
        then mkPhaseInfo Breakout (breakout_points breakout_phase)
               (phase_description Breakout)
        else mkPhaseInfo NoPhase 0 (phase_description NoPhase).

(** *** [analyze], [_empty_result], [batch_analyze] *)

Record AccumulationResult : Type := mkResult {
  phase : Phase;
  ratio : float;
  points : Z;
  description : string;
  stoch_signals : Z;
  rsi_signals : Z;
  rsi : float;
  history : Series
}.

Definition _empty_result : AccumulationResult :=
  {| phase := NoPhase;
     ratio := Fin 0;
     points := 0;
     description := "Insufficient Data";
     stoch_signals := 0;
     rsi_signals := 0;
     rsi := Fin 50;
     history := [] |}.

(** The body of the [try] block of [analyze]; [df] is [None] or a frame. *)
Definition analyze_try
    (self : AccumulationAnalyzer) (df : option DataFrame) (symbol : option string)
  : result AccumulationResult :=
  match df with
  | None => mret _empty_result
  | Some df =>
      if df_empty df then mret _empty_result
      else
        let missing_cols : gset string :=
          list_to_set required_cols ∖ dom (columns df) in
        if bool_decide (missing_cols ≠ ∅) then mret _empty_result
        else
          df_with_ratio ← calculate_ratio_series self df None;
          latest ← iloc_last df_with_ratio;
          ratio ← row_getitem latest "accumulation_ratio";
          rsi ← row_getitem latest "rsi";
          stoch_signals ← row_getitem latest "stoch_signals";
          rsi_signals ← row_getitem latest "rsi_signals";
          let phase_info := classify_phase self ratio rsi in
          ratio_series ← getitem df_with_ratio "accumulation_ratio";
          let history := tail 10 ratio_series in
          stoch_signals_int ← int stoch_signals;
          rsi_signals_int ← int rsi_signals;
          mret {| phase := info_phase phase_info;
                  ratio := ratio;
                  points := info_points phase_info;
                  description := info_description phase_info;
                  stoch_signals := stoch_signals_int;
                  rsi_signals := rsi_signals_int;
                  rsi := rsi;
                  history := history |}
  end.

Definition analyze
    (self : AccumulationAnalyzer) (df : option DataFrame) (symbol : option string)
  : AccumulationResult :=
  try_except_value (analyze_try self df symbol) (fun _ => _empty_result).

(** The loop of [batch_analyze] over any callable standing for
    [self.analyze]: the [try]/[except] around the call maps an exception
    to the default result of that one symbol.  Both dicts are finite maps
    with unique keys; the loop writes one key per iteration, so the order
    in which [items()] yields the symbols does not show in the result. *)
Definition batch_analyze_with
    (analyze_fn : option DataFrame -> option string -> result AccumulationResult)
    (data_dict : gmap string (option DataFrame))
  : gmap string AccumulationResult :=
  map_fold
    (fun symbol df results =>
       <[symbol := try_except_value (analyze_fn df (Some symbol))
                     (fun _ => _empty_result)]> results)
    ∅ data_dict.

Definition batch_analyze
    (self : AccumulationAnalyzer) (data_dict : gmap string (option DataFrame))
  : gmap string AccumulationResult :=
  batch_analyze_with (fun df symbol => mret (analyze self df symbol)) data_dict.

(** ** The ratio as the specification words it

    The number of oversold bars among [cells], and the ratio of a bar
    from its two counts: the fast count over [max(slow count, 0.1)],
    forced to 0 when both counts are 0, clipped to [[0, 20]]. *)

Definition oversold_count (threshold : Q) (cells : Series) : Z :=
  Z.of_nat (length (filter (fun x => Float.lt x (Fin threshold) = true) cells)).

Definition spec_ratio (fast_count slow_count : Z) : Q :=
  let raw :=
    if (fast_count =? 0) && (slow_count =? 0) then 0%Q
    else (inject_Z fast_count / Qmax (inject_Z slow_count) (1 # 10))%Q in
  Qmin (Qmax raw 0) 20.

(** The cell of the ['accumulation_ratio'] column computed from the
    aligned cells of ['stoch_signals'] and ['rsi_signals']. *)
Definition ratio_cell (a b : float) : float :=
  Float.clip (Fin 0) (Fin 20)
    (zero_where_both_zero a b
       (Float.div a (Float.replace (Fin 0) (Fin (1 # 10)) b))).

(** The documented analyzer with a window of two bars, for tables of a
    few rows. *)
Definition short_window_analyzer : AccumulationAnalyzer :=
  {| window := 2;
     stoch_oversold := stoch_oversold documented_analyzer;
     rsi_oversold := rsi_oversold documented_analyzer;
     phases := phases documented_analyzer |}.

(** ** The tiers as the specification words them

    Four tiers in a fixed order, each with a ratio range and an RSI bound;
    the first tier whose two conditions hold wins, and no tier gives
    ['none']. *)

Definition tiers : list Phase := [Early; Mid; Late; Breakout].

Definition ratio_in_range (self : AccumulationAnalyzer) (t : Phase) (ratio : float)
  : bool :=
  match t with
  | Early => Float.le (Fin (early_min_ratio (phases_early (phases self)))) ratio
  | Mid =>
      Float.le (Fin (mid_min_ratio (phases_mid (phases self)))) ratio
      && Float.lt ratio (Fin (mid_max_ratio (phases_mid (phases self))))
  | Late =>
      Float.le (Fin (late_min_ratio (phases_late (phases self)))) ratio
      && Float.lt ratio (Fin (late_max_ratio (phases_late (phases self))))
  | Breakout =>
      Float.le (Fin (breakout_min_ratio (phases_breakout (phases self)))) ratio
      && Float.lt ratio (Fin (breakout_max_ratio (phases_breakout (phases self))))
  | NoPhase => true
  end.

Definition rsi_in_bound (self : AccumulationAnalyzer) (t : Phase) (rsi : float)
  : bool :=
  match t with
  | Early => Float.le rsi (Fin (early_max_rsi (phases_early (phases self))))
  | Mid => Float.le rsi (Fin (mid_max_rsi (phases_mid (phases self))))
  | Late =>
      Float.le (Fin (late_min_rsi (phases_late (phases self)))) rsi
      && Float.le rsi (Fin (late_max_rsi (phases_late (phases self))))
  | Breakout =>
      Float.le (Fin (breakout_min_rsi (phases_breakout (phases self)))) rsi
  | NoPhase => true
  end.

Definition tier_points (self : AccumulationAnalyzer) (t : Phase) : Z :=
  match t with
  | Early => early_points (phases_early (phases self))
  | Mid => mid_points (phases_mid (phases self))
  | Late => late_points (phases_late (phases self))
  | Breakout => breakout_points (phases_breakout (phases self))
  | NoPhase => 0
  end.

Definition first_tier (self : AccumulationAnalyzer) (ratio rsi : float) : Phase :=
  match List.find (fun t => ratio_in_range self t ratio && rsi_in_bound self t rsi)
          tiers with
  | Some t => t
  | None => NoPhase
  end.

(** Python's [x == 0] on a cell. *)
Abbreviation is_zero x := (Float.eqb x (Fin 0) = true).

(** ** Sample tables *)

(** A frame holding the two oscillator columns. *)
Definition frame_of (stoch_rsi rsi : Series) : DataFrame :=
  mkDataFrame (length stoch_rsi)
    (<["stoch_rsi"%string := stoch_rsi]> (<["rsi"%string := rsi]> ∅)).

(** Two bars, the fast oscillator never oversold, the slow one always. *)
Definition only_rsi_oversold : DataFrame :=
  frame_of [Fin 50; Fin 50] [Fin 20; Fin 20].

(** Four bars with one NaN cell, as in the module's tests. *)
Definition four_bars : DataFrame :=
  frame_of [Fin 10; Fin 15; NaN; Fin 50] [Fin 20; Fin 40; Fin 40; Fin 45].

(** A frame with prices only ([test_analyze_missing_indicators]). *)
Definition prices_only : DataFrame :=
  mkDataFrame 3 (<["close"%string := [Fin 100; Fin 100; Fin 100]]> ∅).

(** A frame that lacks the fast oscillator. *)
Definition rsi_only : DataFrame :=
  mkDataFrame 2 (<["rsi"%string := [Fin 40; Fin 40]]> ∅).

(** * The scoring engine and the watchlist pipeline

    [src/screening/sabr20_engine.py] and [src/screening/watchlist.py] are
    imported by the tests but are not among the sources; what follows is
    written from the specification and from what the tests assert. *)

(** ** Scores and grades *)

Inductive Grade : Type := Excellent | Strong | Good | Weak.

#[export] Instance Grade_eq_dec : EqDecision Grade.
Proof. solve_decision. Defined.

(** Modelled from the spec: the grade bands of [SABR20Score] (section 4.3:
    closed lower bounds, [80,100] Excellent, [65,80) Strong, [50,65) Good,
    else Weak); the class itself is missing from the sources. *)
Definition grade_of (total_points : Q) : Grade :=
  if Qle_bool 80 total_points then Excellent
  else if Qle_bool 65 total_points then Strong
  else if Qle_bool 50 total_points then Good
  else Weak.

Record ComponentScores : Type := mkComponents {
  setup_strength : Q;
  bottom_phase : Q;
  accumulation_intensity : Q;
  trend_momentum : Q;
  risk_reward : Q;
  macro_confirmation : Q
}.

(** Modelled from the spec: the Score record of section 3 (symbol, total,
    six component scores, grade); its timestamp and its details are read
    by no property below and are left out. *)
Record SABR20Score : Type := mkScore {
  symbol : string;
  total_points : Q;
  component_scores : ComponentScores;
  setup_grade : Grade
}.

(** Modelled from the spec: constructing a Score assigns its grade from
    its total ([SABR20Score(symbol=..., total_points=...)] in the tests). *)
Definition new_score (symbol : string) (total_points : Q)
    (component_scores : ComponentScores) : SABR20Score :=
  mkScore symbol total_points component_scores (grade_of total_points).

Definition no_components : ComponentScores := mkComponents 0 0 0 0 0 0.

(** ** Component 1: setup strength *)

Record SetupStrength : Type := mkSetup {
  setup_points : Z;
  bb_points : Z;
  stoch_points : Z;
  setup_bb_position : option float;
  setup_stoch_rsi : option float
}.

(** Modelled from the spec: the Bollinger-position tiers of component 1
    (section 4.2: at most 10% gives 10, at most 20% gives 7, at most 30%
    gives 4, else 0); NaN satisfies no comparison and scores 0. *)
Definition bb_tier (bb_position : float) : Z :=
  if Float.le bb_position (Fin (10 # 100)) then 10
  else if Float.le bb_position (Fin (20 # 100)) then 7
  else if Float.le bb_position (Fin (30 # 100)) then 4
  else 0.

(** Modelled from the spec: the Stoch-RSI tiers of component 1 (section
    4.2: below 10 gives 10, [10,15) gives 7, [15,20) gives 4, else 0). *)
Definition stoch_tier (stoch_rsi : float) : Z :=
  if Float.lt stoch_rsi (Fin 10) then 10
  else if Float.lt stoch_rsi (Fin 15) then 7
  else if Float.lt stoch_rsi (Fin 20) then 4
  else 0.

(** The latest cell of a column, when the column and the cell exist. *)
Definition latest_cell (df : DataFrame) (c : string) : option float :=
  columns df !! c ≫= last.

(** Modelled from the spec: [component_1_setup_strength] (section 4.2),
    missing from the sources: the two tiers of the latest bar added up; a
    missing table, an empty table or a missing cell gives 0 for the
    sub-score concerned only. *)
Definition component_1_setup_strength (df : option DataFrame) : SetupStrength :=
  match df with
  | None => mkSetup 0 0 0 None None
  | Some df =>
      if df_empty df then mkSetup 0 0 0 None None
      else
        let bb := latest_cell df "bb_position" in
        let st := latest_cell df "stoch_rsi" in
        let bb_pts := from_option bb_tier 0 bb in
        let stoch_pts := from_option stoch_tier 0 st in
        mkSetup (bb_pts + stoch_pts) bb_pts stoch_pts bb st
  end.

(** A one-bar trigger table with the two cells component 1 reads. *)
Definition setup_frame (bb_position stoch_rsi : float) : DataFrame :=
  mkDataFrame 1
    (<["bb_position"%string := [bb_position]]>
       (<["stoch_rsi"%string := [stoch_rsi]]> ∅)).

(** A trigger table of two bars: the latest bar holds the given cells, the
    bar before it holds cells that score nothing. *)
Definition two_bar_setup_frame (bb_position stoch_rsi : float) : DataFrame :=
  mkDataFrame 2
    (<["bb_position"%string := [Fin (50 # 100); bb_position]]>
       (<["stoch_rsi"%string := [Fin 50; stoch_rsi]]> ∅)).

(** ** The parallel batch scorer

    Modelled from the spec (section 4.6; [score_candidates_parallel] is
    missing from the sources): every symbol is submitted to a pool of at
    most [max_workers] workers; a worker that finishes hands over the
    outcome of [score_candidate] for its symbol; only Scores are
    collected, in completion order.  The pool is a transition system:
    which running worker finishes next is not determined. *)

(** What one call of [score_candidate] does: raise, return [None], or
    return a Score. *)
Abbreviation Outcome := (result (option SABR20Score)).









(** ** The watchlist pipeline *)

(** Modelled from the spec: the collaborators and the defaults of
    [WatchlistGenerator] (sections 4.7 and 6); the batch scorer is the
    field the tests patch. *)
Record WatchlistGenerator : Type := mkGenerator {
  max_watchlist_size : nat;
  min_score_threshold : Q;
  build_universe : list string;
  screen : list string -> list string;
  score_candidates_parallel : list string -> list SABR20Score
}.

(** Insertion into a list ranked by total, best first; an entry goes
    behind the entries of the same total. *)
Fixpoint insert_ranked (s : SABR20Score) (l : list SABR20Score)
  : list SABR20Score :=
  match l with
  | [] => [s]
  | t :: l' =>
      if Qle_bool (total_points s) (total_points t)
      then t :: insert_ranked s l'
      else s :: t :: l'
  end.

(** Step 5 of [generate]: sort descending by [total_points] (stable). *)
Definition rank (l : list SABR20Score) : list SABR20Score :=
  foldr insert_ranked [] (reverse l).

Definition is_nil {A} (l : list A) : bool :=
  match l with [] => true | _ => false end.

(** Modelled from the spec: [generate] (section 4.7, steps 1 to 6), missing
    from the sources. *)
Definition generate (self : WatchlistGenerator)
    (universe : option (list string)) (skip_coarse_filter : bool)
    (max_symbols : option nat) (min_score : option Q) : list SABR20Score :=
  let max_symbols := default (max_watchlist_size self) max_symbols in
  let min_score := default (min_score_threshold self) min_score in
  let universe := default (build_universe self) universe in
  if is_nil universe then []
  else
    let candidates :=
      if skip_coarse_filter then universe else screen self universe in
    if is_nil candidates then []
    else
      let scores := score_candidates_parallel self candidates in
      if is_nil scores then []
      else
        let kept :=
          filter (fun s => Qle_bool min_score (total_points s) = true) scores in
        take max_symbols (rank kept).

(** Descending by total: each entry's total is at least the next one's;
    strictly descending: greater than the next one's. *)
Definition descending (l : list SABR20Score) : Prop :=
  Sorted (fun s t => (total_points t <= total_points s)%Q) l.

Definition strictly_descending (l : list SABR20Score) : Prop :=
  Sorted (fun s t => (total_points t < total_points s)%Q) l.

(** [test_generate_with_min_score_filtering]: four candidates scoring
    85, 70, 60 and 45. *)
Definition four_candidates : WatchlistGenerator :=
  {| max_watchlist_size := 20;
     min_score_threshold := 50;
     build_universe := ["AAPL"; "MSFT"; "GOOGL"; "TSLA"]%string;
     screen := fun symbols => symbols;
     score_candidates_parallel := fun _ =>
       [new_score "AAPL" 85 no_components;
        new_score "MSFT" 70 no_components;
        new_score "GOOGL" 60 no_components;
        new_score "TSLA" 45 no_components] |}.

(** Two candidates with the same total. *)
Definition tied_candidates : WatchlistGenerator :=
  {| max_watchlist_size := 20;
     min_score_threshold := 50;
     build_universe := ["AAPL"; "MSFT"]%string;
     screen := fun symbols => symbols;
     score_candidates_parallel := fun _ =>
       [new_score "AAPL" 70 no_components;
        new_score "MSFT" 70 no_components] |}.

(** * Further definitions for the analyzer *)

(** The three columns [calculate_ratio_series] writes. *)
Definition added_cols : list string :=
  ["stoch_signals"; "rsi_signals"; "accumulation_ratio"]%string.

(** The rolling count column of one oscillator, as the call computes it
    from the window in use. *)
Definition signal_counts (self : AccumulationAnalyzer) (window_arg : option Z)
    (threshold : Q) (cells : Series) : Series :=
  rolling_sum (Z.to_nat (window_used self window_arg))
    (Z.to_nat (window_used self window_arg `div` 2))
    (below threshold cells).

(** The frame a successful call returns, from the two input columns. *)
Definition with_ratio (self : AccumulationAnalyzer) (window_arg : option Z)
    (df : DataFrame) (fast slow : Series) : DataFrame :=
  mkDataFrame (nrows df)
    (<["accumulation_ratio"%string :=
         zip_with ratio_cell
           (signal_counts self window_arg (stoch_oversold self) fast)
           (signal_counts self window_arg (rsi_oversold self) slow)]>
       (<["rsi_signals"%string :=
            signal_counts self window_arg (rsi_oversold self) slow]>
          (<["stoch_signals"%string :=
               signal_counts self window_arg (stoch_oversold self) fast]>
             (columns df)))).

(** A configuration whose ratio ranges follow one another without
    overlap: breakout below late below mid below early, as in the module's
    docstring. *)
Definition ordered_tiers (self : AccumulationAnalyzer) : Prop :=
  (breakout_max_ratio (phases_breakout (phases self))
   <= late_min_ratio (phases_late (phases self)))%Q
  /\ (late_min_ratio (phases_late (phases self))
      <= late_max_ratio (phases_late (phases self)))%Q
  /\ (late_max_ratio (phases_late (phases self))
      <= mid_min_ratio (phases_mid (phases self)))%Q
  /\ (mid_min_ratio (phases_mid (phases self))
      <= mid_max_ratio (phases_mid (phases self)))%Q
  /\ (mid_max_ratio (phases_mid (phases self))
      <= early_min_ratio (phases_early (phases self)))%Q.


(** Four bars with prices next to the two oscillators. *)
Definition four_bars_with_close : DataFrame :=
  setitem four_bars "close" [Fin 100; Fin 101; Fin 102; Fin 103].

(** * Trade validation

    A shallow embedding of [src/execution/validator.py].  Prices, risk
    amounts and percentages are Python floats ([float] above, with the
    arithmetic of Python scalars: a division by zero raises, and so does
    the conversion of an int that is too large for a float); quantities
    and position limits are Python ints.  Finite results are exact
    rationals, so the properties below are those that do not turn on a
    rounded value: which exception is raised, which checks read which
    inputs, comparisons of the inputs themselves, and what NaN does.
    The lock only serialises calls
    and the logger only prints: both are left out.  The timestamp of a
    report and the formatted text of its messages are not modelled: a
    warning is kept as the sentence it stands for, with the numbers it
    prints. *)

Module Validator.

Inductive error : Type :=
| ValueError (message : string)
| ZeroDivisionError
| OverflowError.

Definition res (A : Type) : Type := error + A.

#[export] Instance res_ret : MRet res := fun _ a => inr a.
#[export] Instance res_bind : MBind res :=
  fun _ _ k m => match m with inl e => inl e | inr a => k a end.

(** ** Arithmetic of Python floats *)

Definition neg (a : float) : float :=
  match a with
  | NaN => NaN
  | Inf s => Inf (negb s)
  | Fin q => Fin (- q)
  end.

Definition add (a b : float) : float :=
  match a, b with
  | NaN, _ | _, NaN => NaN
  | Inf s, Inf t => if Bool.eqb s t then Inf s else NaN
  | Inf s, Fin _ => Inf s
  | Fin _, Inf t => Inf t
  | Fin x, Fin y => Fin (x + y)
  end.

Definition sub (a b : float) : float := add a (neg b).

Definition mul (a b : float) : float :=
  match a, b with
  | NaN, _ | _, NaN => NaN
  | Inf s, Inf t => Inf (xorb s t)
  | Inf s, Fin y =>
      if Qeq_bool y 0 then NaN else Inf (xorb s (Float.is_neg y))
  | Fin x, Inf t =>
      if Qeq_bool x 0 then NaN else Inf (xorb (Float.is_neg x) t)
  | Fin x, Fin y => Fin (x * y)
  end.

Definition abs (a : float) : float :=
  match a with
  | NaN => NaN
  | Inf _ => Inf false
  | Fin q => if Qle_bool 0 q then Fin q else Fin (- q)
  end.

(** [a / b]: [ZeroDivisionError] on a zero divisor. *)
Definition truediv (a b : float) : res float :=
  if Float.eqb b (Fin 0) then inl ZeroDivisionError
  else mret (Float.div a b).

(** The first integer that does not convert to a float: it rounds past
    the largest double, [2^1024 - 2^971]. *)
Definition float_int_limit : Z := 2 ^ 1024 - 2 ^ 970.

(** An int where a float is expected ([x * n] with [x] a float): the
    conversion raises [OverflowError] on an integer that is too large. *)
Definition of_int (z : Z) : res float :=
  if Z.abs z <? float_int_limit then mret (Fin (inject_Z z))
  else inl OverflowError.

(** [int(x)]. *)
Definition to_int (x : float) : res Z :=
  match x with
  | NaN => inl (ValueError "cannot convert float NaN to integer")
  | Inf _ => inl OverflowError
  | Fin q => mret (Float.trunc q)
  end.

(** ** Proposals *)

Inductive ValidationResult : Type := APPROVED | REJECTED | WARNING.

Inductive RejectionReason : Type :=
| RISK_PER_TRADE_EXCEEDED
| TOTAL_PORTFOLIO_RISK_EXCEEDED
| INSUFFICIENT_ACCOUNT_BALANCE
| POSITION_SIZE_TOO_SMALL
| POSITION_SIZE_TOO_LARGE
| MAX_POSITION_COUNT_EXCEEDED
| PRICE_OUT_OF_RANGE
| STOP_LOSS_INVALID
| STOP_LOSS_TOO_WIDE
| STOP_LOSS_TOO_TIGHT
| SYMBOL_INVALID
| SYMBOL_NOT_ALLOWED
| ORDER_TYPE_INVALID
| QUANTITY_INVALID
| SIDE_INVALID.

#[export] Instance RejectionReason_eq_dec : EqDecision RejectionReason.
Proof. solve_decision. Defined.

Record TradeProposal : Type := mkProposal {
  symbol : string;
  side : string;
  quantity : Z;
  entry_price : float;
  stop_loss : float;
  take_profit : option float;
  order_type : string;
  time_in_force : string;
  account_size : float
}.

(** [TradeProposal.__post_init__]. *)
Definition post_init (self : TradeProposal) : res unit :=
  if negb (String.eqb (side self) "BUY" || String.eqb (side self) "SELL")
  then inl (ValueError "Invalid side")
  else if quantity self <=? 0
  then inl (ValueError "Invalid quantity")
  else if Float.le (entry_price self) (Fin 0)
  then inl (ValueError "Invalid entry price")
  else if Float.le (stop_loss self) (Fin 0)
  then inl (ValueError "Invalid stop loss")
  else mret tt.

(** The constructor: the fields, then [__post_init__]. *)
Definition new_proposal (fields : TradeProposal) : res TradeProposal :=
  _ ← post_init fields; mret fields.

Definition risk_per_share (self : TradeProposal) : float :=
  if String.eqb (side self) "BUY"
  then abs (sub (entry_price self) (stop_loss self))
  else abs (sub (stop_loss self) (entry_price self)).

Definition total_risk (self : TradeProposal) : res float :=
  quantity ← of_int (quantity self);
  mret (mul (risk_per_share self) quantity).

Definition position_value (self : TradeProposal) : res float :=
  quantity ← of_int (quantity self);
  mret (mul (entry_price self) quantity).

Definition risk_percent (self : TradeProposal) : res float :=
  if Float.lt (Fin 0) (account_size self)
  then total_risk ← total_risk self;
       q ← truediv total_risk (account_size self);
       mret (mul q (Fin 100))
  else mret (Fin 0).

(** [proposal.account_size = value]. *)
Definition set_account_size (value : float) (p : TradeProposal) : TradeProposal :=
  mkProposal (symbol p) (side p) (quantity p) (entry_price p) (stop_loss p)
    (take_profit p) (order_type p) (time_in_force p) value.

(** ** The validator *)

Inductive Warning : Type :=
| StopMustBeBelowEntryForBuy
| StopMustBeAboveEntryForSell
| AlreadyHavePositions (count max : Z).

Inductive number : Type :=
| IntNum (z : Z)
| FloatNum (x : float).

Record ValidationReport : Type := mkReport {
  result : ValidationResult;
  approved : bool;
  report_symbol : string;
  proposal : TradeProposal;
  rejections : list RejectionReason;
  warnings : list Warning;
  risk_metrics : gmap string number
}.

Record ExecutionValidator : Type := mkValidator {
  validator_account_size : float;
  max_risk_per_trade_percent : float;
  max_total_risk_percent : float;
  max_positions : Z;
  min_position_size : Z;
  max_position_size : option Z;
  min_stop_distance_percent : float;
  max_stop_distance_percent : float;
  allowed_symbols : option (list string);
  _current_positions : gmap string float
}.

(** [ExecutionValidator.__init__] with its defaults: no position is
    tracked. *)
Definition new_validator (account_size : float) : ExecutionValidator :=
  {| validator_account_size := account_size;
     max_risk_per_trade_percent := Fin 1;
     max_total_risk_percent := Fin 3;
     max_positions := 10;
     min_position_size := 1;
     max_position_size := None;
     min_stop_distance_percent := Fin (1 # 2);
     max_stop_distance_percent := Fin 10;
     allowed_symbols := None;
     _current_positions := ∅ |}.

(** Truth value of an optional int: [None] and 0 are false. *)
Definition truthy_int (o : option Z) : option Z :=
  match o with
  | Some z => if z =? 0 then None else Some z
  | None => None
  end.

(** Truth value of an optional list: [None] and the empty list are
    false. *)
Definition truthy_list {A} (o : option (list A)) : option (list A) :=
  match o with
  | Some [] => None
  | Some l => Some l
  | None => None
  end.

(** [sum(self._current_positions.values())].  An exact sum: the rounding
    of the additions, and with it the order in which the dict yields the
    risks, is not modelled, and no property below rests on the value of
    the sum. *)
Definition positions_risk (positions : gmap string float) : float :=
  map_fold (fun _ risk total => add total risk) (Fin 0) positions.

(** [rejections.append(r)] when [c] holds. *)
Definition append_if {A} (c : bool) (x : A) (l : list A) : list A :=
  if c then l ++ [x] else l.

(** [metrics[key] = value] when [c] holds. *)
Definition set_if (c : bool) (key : string) (value : number)
    (m : gmap string number) : gmap string number :=
  if c then <[key := value]> m else m.

Definition with_positions (positions : gmap string float)
    (self : ExecutionValidator) : ExecutionValidator :=
  mkValidator (validator_account_size self) (max_risk_per_trade_percent self)
    (max_total_risk_percent self) (max_positions self) (min_position_size self)
    (max_position_size self) (min_stop_distance_percent self)
    (max_stop_distance_percent self) (allowed_symbols self) positions.

Definition calculate_position_size (self : ExecutionValidator)
    (symbol : string) (entry_price stop_loss : float)
    (risk_amount : option float) : res Z :=
  risk_amount ←
    match risk_amount with
    | Some r => mret r
    | None =>
        pct ← truediv (max_risk_per_trade_percent self) (Fin 100);
        mret (mul (validator_account_size self) pct)
    end;
  let risk_per_share := abs (sub entry_price stop_loss) in
  if Float.eqb risk_per_share (Fin 0) then mret 0
  else
    q ← truediv risk_amount risk_per_share;
    position_size ← to_int q;
    let position_size :=
      match truthy_int (max_position_size self) with
      | Some m => Z.min position_size m
      | None => position_size
      end in
    let position_size := Z.max position_size (min_position_size self) in
    mret position_size.

Definition validate (self : ExecutionValidator) (proposal : TradeProposal)
  : res ValidationReport :=
  let proposal :=
    if Float.eqb (account_size proposal) (Fin 0)
    then set_account_size (validator_account_size self) proposal
    else proposal in
  let risk_per_share := risk_per_share proposal in
  total_risk ← total_risk proposal;
  risk_percent ← risk_percent proposal;
  position_value ← position_value proposal;
  let risk_metrics : gmap string number :=
    <["position_value"%string := FloatNum position_value]>
      (<["risk_percent"%string := FloatNum risk_percent]>
         (<["total_risk"%string := FloatNum total_risk]>
            (<["risk_per_share"%string := FloatNum risk_per_share]> ∅))) in
  let rejections : list RejectionReason := [] in
  let warnings : list Warning := [] in
  (* 1. symbol *)
  let rejections :=
    append_if (String.eqb (symbol proposal) "") SYMBOL_INVALID rejections in
  let rejections :=
    append_if
      (match truthy_list (allowed_symbols self) with
       | Some allowed => negb (bool_decide (symbol proposal ∈ allowed))
       | None => false
       end) SYMBOL_NOT_ALLOWED rejections in
  (* 2. quantity *)
  let too_small := quantity proposal <? min_position_size self in
  let rejections := append_if too_small POSITION_SIZE_TOO_SMALL rejections in
  let risk_metrics :=
    set_if too_small "min_position_size" (IntNum (min_position_size self))
      risk_metrics in
  let too_large :=
    match truthy_int (max_position_size self) with
    | Some m => m <? quantity proposal
    | None => false
    end in
  let rejections := append_if too_large POSITION_SIZE_TOO_LARGE rejections in
  let risk_metrics :=
    set_if too_large "max_position_size"
      (IntNum (default 0 (max_position_size self))) risk_metrics in
  (* 3. stop loss *)
  q ← truediv risk_per_share (entry_price proposal);
  let stop_distance_percent := mul q (Fin 100) in
  let risk_metrics :=
    <["stop_distance_percent"%string := FloatNum stop_distance_percent]>
      risk_metrics in
  let too_tight :=
    Float.lt stop_distance_percent (min_stop_distance_percent self) in
  let rejections := append_if too_tight STOP_LOSS_TOO_TIGHT rejections in
  let risk_metrics :=
    set_if too_tight "min_stop_distance"
      (FloatNum (min_stop_distance_percent self)) risk_metrics in
  let too_wide :=
    Float.lt (max_stop_distance_percent self) stop_distance_percent in
  let rejections := append_if too_wide STOP_LOSS_TOO_WIDE rejections in
  let risk_metrics :=
    set_if too_wide "max_stop_distance"
      (FloatNum (max_stop_distance_percent self)) risk_metrics in
  let buy_stop_wrong :=
    String.eqb (side proposal) "BUY"
    && Float.ge (stop_loss proposal) (entry_price proposal) in
  let rejections := append_if buy_stop_wrong STOP_LOSS_INVALID rejections in
  let warnings := append_if buy_stop_wrong StopMustBeBelowEntryForBuy warnings in
  let sell_stop_wrong :=
    String.eqb (side proposal) "SELL"
    && Float.le (stop_loss proposal) (entry_price proposal) in
  let rejections := append_if sell_stop_wrong STOP_LOSS_INVALID rejections in
  let warnings :=
    append_if sell_stop_wrong StopMustBeAboveEntryForSell warnings in
  (* 4. risk per trade *)
  let rejections :=
    append_if (Float.lt (max_risk_per_trade_percent self) risk_percent)
      RISK_PER_TRADE_EXCEEDED rejections in
  (* 5. total portfolio risk *)
  let current_total_risk := positions_risk (_current_positions self) in
  let new_total_risk := add current_total_risk total_risk in
  q ← truediv new_total_risk (validator_account_size self);
  let total_portfolio_risk_percent := mul q (Fin 100) in
  let risk_metrics :=
    <["total_portfolio_risk"%string := FloatNum total_portfolio_risk_percent]>
      (<["current_portfolio_risk"%string := FloatNum current_total_risk]>
         risk_metrics) in
  let rejections :=
    append_if
      (Float.lt (max_total_risk_percent self) total_portfolio_risk_percent)
      TOTAL_PORTFOLIO_RISK_EXCEEDED rejections in
  (* 6. account balance *)
  let available_balance :=
    sub (validator_account_size self) current_total_risk in
  let risk_metrics :=
    <["available_balance"%string := FloatNum available_balance]> risk_metrics in
  let rejections :=
    append_if (Float.lt available_balance position_value)
      INSUFFICIENT_ACCOUNT_BALANCE rejections in
  (* 7. position count *)
  let count := Z.of_nat (size (_current_positions self)) in
  let too_many :=
    (max_positions self <=? count)
    && negb (bool_decide
               (is_Some (_current_positions self !! symbol proposal))) in
  let rejections := append_if too_many MAX_POSITION_COUNT_EXCEEDED rejections in
  let warnings :=
    append_if too_many (AlreadyHavePositions count (max_positions self))
      warnings in
  (* result *)
  let '(result, approved) :=
    if negb (is_nil rejections) then (REJECTED, false)
    else if negb (is_nil warnings) then (WARNING, true)
    else (APPROVED, true) in
  mret (mkReport result approved (symbol proposal) proposal rejections
          warnings risk_metrics).

Definition add_position (self : ExecutionValidator) (symbol : string)
    (risk_amount : float) : ExecutionValidator :=
  with_positions (<[symbol := risk_amount]> (_current_positions self)) self.

Definition remove_position (self : ExecutionValidator) (symbol : string)
  : ExecutionValidator :=
  if bool_decide (is_Some (_current_positions self !! symbol))
  then with_positions (delete symbol (_current_positions self)) self
  else self.

Definition update_position_risk (self : ExecutionValidator) (symbol : string)
    (new_risk : float) : ExecutionValidator :=
  if bool_decide (is_Some (_current_positions self !! symbol))
  then with_positions (<[symbol := new_risk]> (_current_positions self)) self
  else self.

Definition get_current_positions (self : ExecutionValidator)
  : gmap string float :=
  _current_positions self.

Definition reset (self : ExecutionValidator) : ExecutionValidator :=
  with_positions ∅ self.

(** *** The checks of [validate] by name

    The proposal [validate] works on, and the rejections and warnings it
    collects, as functions of the numbers it computes. *)

Definition effective (self : ExecutionValidator) (proposal : TradeProposal)
  : TradeProposal :=
  if Float.eqb (account_size proposal) (Fin 0)
  then set_account_size (validator_account_size self) proposal
  else proposal.

Definition not_allowed (self : ExecutionValidator) (p : TradeProposal) : bool :=
  match truthy_list (allowed_symbols self) with
  | Some allowed => negb (bool_decide (symbol p ∈ allowed))
  | None => false
  end.

Definition too_large (self : ExecutionValidator) (p : TradeProposal) : bool :=
  match truthy_int (max_position_size self) with
  | Some m => m <? quantity p
  | None => false
  end.

Definition buy_stop_wrong (p : TradeProposal) : bool :=
  String.eqb (side p) "BUY" && Float.ge (stop_loss p) (entry_price p).

Definition sell_stop_wrong (p : TradeProposal) : bool :=
  String.eqb (side p) "SELL" && Float.le (stop_loss p) (entry_price p).

Definition too_many (self : ExecutionValidator) (p : TradeProposal) : bool :=
  (max_positions self <=? Z.of_nat (size (_current_positions self)))
  && negb (bool_decide (is_Some (_current_positions self !! symbol p))).

Definition rejections_of (self : ExecutionValidator) (p : TradeProposal)
    (risk_percent stop_distance_percent total_portfolio_risk_percent
       position_value : float)
  : list RejectionReason :=
  append_if (too_many self p) MAX_POSITION_COUNT_EXCEEDED
    (append_if
       (Float.lt (sub (validator_account_size self)
                    (positions_risk (_current_positions self)))
          position_value)
       INSUFFICIENT_ACCOUNT_BALANCE
       (append_if
          (Float.lt (max_total_risk_percent self) total_portfolio_risk_percent)
          TOTAL_PORTFOLIO_RISK_EXCEEDED
          (append_if (Float.lt (max_risk_per_trade_percent self) risk_percent)
             RISK_PER_TRADE_EXCEEDED
             (append_if (sell_stop_wrong p) STOP_LOSS_INVALID
                (append_if (buy_stop_wrong p) STOP_LOSS_INVALID
                   (append_if
                      (Float.lt (max_stop_distance_percent self)
                         stop_distance_percent)
                      STOP_LOSS_TOO_WIDE
                      (append_if
                         (Float.lt stop_distance_percent
                            (min_stop_distance_percent self))
                         STOP_LOSS_TOO_TIGHT
                         (append_if (too_large self p) POSITION_SIZE_TOO_LARGE
                            (append_if
                               (quantity p <? min_position_size self)
                               POSITION_SIZE_TOO_SMALL
                               (append_if (not_allowed self p)
                                  SYMBOL_NOT_ALLOWED
                                  (append_if (String.eqb (symbol p) "")
                                     SYMBOL_INVALID [] ))))))))))).

Definition warnings_of (self : ExecutionValidator) (p : TradeProposal)
  : list Warning :=
  append_if (too_many self p)
    (AlreadyHavePositions (Z.of_nat (size (_current_positions self)))
       (max_positions self))
    (append_if (sell_stop_wrong p) StopMustBeAboveEntryForSell
       (append_if (buy_stop_wrong p) StopMustBeBelowEntryForBuy [])).

(** The docstring's example: a 100 000 account, AAPL bought at 150 with a
    stop at 148. *)
Definition aapl_buy : TradeProposal :=
  mkProposal "AAPL" "BUY" 100 (Fin 150) (Fin 148) None "LIMIT" "DAY" (Fin 0).

(** The same order with a stop that is not a number. *)
Definition nan_stop_buy : TradeProposal :=
  mkProposal "AAPL" "BUY" 100 (Fin 150) NaN None "LIMIT" "DAY" (Fin 0).

(** The same order for [10^309] shares, more than a float can hold. *)
Definition huge_buy : TradeProposal :=
  mkProposal "AAPL" "BUY" (10 ^ 309) (Fin 150) (Fin 148) None "LIMIT" "DAY"
    (Fin 0).

End Validator.

(** * Properties *)

(** ** Arithmetic of floats *)

Section FloatFacts.

Local Open Scope Q_scope.

Lemma Qeq_bool_false_iff (x y : Q) : Qeq_bool x y = false <-> ~ x == y.
Proof.
  split.
  - intros H E. apply Qeq_bool_iff in E. congruence.
  - intros H. destruct (Qeq_bool x y) eqn:E; [|reflexivity].
    apply Qeq_bool_iff in E. contradiction.
Qed.

Lemma Qle_bool_false_iff (x y : Q) : Qle_bool x y = false <-> y < x.
Proof.
  split.
  - intros H. apply Qnot_le_lt. intros L. apply Qle_bool_iff in L. congruence.
  - intros H. destruct (Qle_bool x y) eqn:E; [|reflexivity].
    apply Qle_bool_iff in E. exfalso. eapply Qlt_not_le; eauto.
Qed.

(** Clipping a finite cell is clipping the rational. *)
Lemma clip_Fin (x : Q) :
  exists y, Float.clip (Fin 0) (Fin 20) (Fin x) = Fin y
            /\ y == Qmin (Qmax x 0) 20 /\ 0 <= y <= 20.
Proof.
  unfold Float.clip, Float.lt.
  destruct (Qle_bool 0 x) eqn:E0; simpl.
  - apply Qle_bool_iff in E0.
    destruct (Qle_bool x 20) eqn:E1; simpl.
    + apply Qle_bool_iff in E1. exists x. split; [reflexivity|]. split.
      * rewrite (Q.max_l x 0) by exact E0. rewrite Q.min_l by exact E1.
        reflexivity.
      * split; assumption.
    + apply Qle_bool_false_iff in E1. exists 20. split; [reflexivity|]. split.
      * rewrite (Q.max_l x 0) by exact E0.
        rewrite Q.min_r by (apply Qlt_le_weak; exact E1). reflexivity.
      * split; [discriminate | apply Qle_refl].
  - apply Qle_bool_false_iff in E0. exists 0. split; [reflexivity|]. split.
    + rewrite (Q.max_r x 0) by (apply Qlt_le_weak; exact E0).
      rewrite Q.min_l by discriminate. reflexivity.
    + split; [apply Qle_refl | discriminate].
Qed.

Lemma inject_Z_eq0 (z : Z) : Qeq_bool (inject_Z z) 0 = (z =? 0)%Z.
Proof.
  unfold Qeq_bool, inject_Z. simpl. f_equal. lia.
Qed.

(** The denominator after [replace(0, 0.1)] is [max(count, 0.1)]. *)
Lemma replace_count (r : Z) :
  (0 <= r)%Z ->
  exists d, Float.replace (Fin 0) (Fin (1 # 10)) (Fin (inject_Z r)) = Fin d
            /\ d == Qmax (inject_Z r) (1 # 10) /\ 0 < d.
Proof.
  intros Hr. unfold Float.replace, Float.eqb. rewrite inject_Z_eq0.
  destruct (Z.eqb_spec r 0) as [->|Hne].
  - exists (1 # 10). split; [reflexivity|]. split; [|reflexivity].
    rewrite Q.max_r; [reflexivity | discriminate].
  - exists (inject_Z r). split; [reflexivity|].
    assert (H1 : 1 <= inject_Z r).
    { change 1 with (inject_Z 1). rewrite <- Zle_Qle. lia. }
    split.
    + rewrite Q.max_l; [reflexivity|].
      apply Qle_trans with 1; [discriminate | exact H1].
    + apply Qlt_le_trans with 1; [reflexivity | exact H1].
Qed.

End FloatFacts.

Section RatioCell.

Local Open Scope Q_scope.

Lemma zero_where_both_zero_counts (s r : Z) (x : float) :
  zero_where_both_zero (Fin (inject_Z s)) (Fin (inject_Z r)) x
  = if ((s =? 0)%Z && (r =? 0)%Z)%bool then Fin 0 else x.
Proof.
  unfold zero_where_both_zero, Float.eqb. now rewrite !inject_Z_eq0.
Qed.

Lemma div_pos_den (x d : Q) : 0 < d -> Float.div (Fin x) (Fin d) = Fin (x / d).
Proof.
  intros Hd. unfold Float.div.
  replace (Qeq_bool d 0) with false; [reflexivity|].
  symmetry. apply Qeq_bool_false_iff. intros E. rewrite E in Hd.
  exact (Qlt_irrefl 0 Hd).
Qed.

(** One bar, from its two counts: the code's cell is the specification's
    ratio, lies in [[0, 20]], and is 0 exactly when the fast count is 0. *)
Lemma ratio_cell_counts (s r : Z) :
  (0 <= s)%Z -> (0 <= r)%Z ->
  exists x, ratio_cell (Fin (inject_Z s)) (Fin (inject_Z r)) = Fin x
            /\ x == spec_ratio s r /\ 0 <= x <= 20 /\ (x == 0 <-> s = 0%Z).
Proof.
  intros Hs Hr.
  destruct (replace_count r Hr) as (d & Hd & Hdmax & Hdpos).
  unfold ratio_cell. rewrite Hd, (div_pos_den _ _ Hdpos).
  rewrite zero_where_both_zero_counts. unfold spec_ratio.
  destruct (Z.eqb_spec s 0) as [->|Hs0]; simpl.
  - (* no fast signal: the quotient and the forced value are both 0 *)
    assert (Hraw : (if (r =? 0)%Z then Fin 0 else Fin (inject_Z 0 / d))
                   = Fin (if (r =? 0)%Z then 0 else inject_Z 0 / d))
      by (destruct (r =? 0)%Z; reflexivity).
    rewrite Hraw. clear Hraw.
    set (raw := if (r =? 0)%Z then 0 else inject_Z 0 / d).
    assert (Hraw0 : raw == 0).
    { unfold raw. destruct (r =? 0)%Z; [reflexivity|].
      unfold Qdiv. apply Qmult_0_l. }
    destruct (clip_Fin raw) as (y & Hy & Hyeq & Hyb).
    exists y. split; [exact Hy|].
    assert (Hy0 : y == 0).
    { rewrite Hyeq, Hraw0. reflexivity. }
    split; [|split; [exact Hyb | tauto]].
    rewrite Hy0.
    destruct (r =? 0)%Z.
    + reflexivity.
    + assert (E : inject_Z 0 / Qmax (inject_Z r) (1 # 10) == 0)
        by (unfold Qdiv; apply Qmult_0_l).
      rewrite E. reflexivity.
  - (* some fast signal: the quotient is positive *)
    destruct (clip_Fin (inject_Z s / d)) as (y & Hy & Hyeq & Hyb).
    exists y. split; [exact Hy|].
    assert (Hspos : 0 < inject_Z s).
    { change 0 with (inject_Z 0). rewrite <- Zlt_Qlt. lia. }
    assert (Hq : 0 < inject_Z s / d).
    { unfold Qdiv. apply Qmult_lt_0_compat; [exact Hspos|].
      apply Qinv_lt_0_compat. exact Hdpos. }
    split; [|split; [exact Hyb|]].
    + rewrite Hyeq, <- Hdmax. reflexivity.
    + split; [|intros ->; lia].
      intros Hy0. exfalso.
      assert (Hpos : 0 < y).
      { rewrite Hyeq. apply Q.min_glb_lt; [|reflexivity].
        rewrite Q.max_l; [exact Hq | apply Qlt_le_weak; exact Hq]. }
      rewrite Hy0 in Hpos. exact (Qlt_irrefl 0 Hpos).
Qed.

(** A cell with an undefined count is undefined. *)
Lemma ratio_cell_NaN_l (b : float) : ratio_cell NaN b = NaN.
Proof. unfold ratio_cell. destruct b; reflexivity. Qed.

Lemma ratio_cell_NaN_r (a : float) : ratio_cell a NaN = NaN.
Proof.
  unfold ratio_cell, zero_where_both_zero.
  replace (Float.eqb NaN (Fin 0)) with false by reflexivity.
  rewrite andb_false_r. destruct a; reflexivity.
Qed.

End RatioCell.

(** ** The columns [calculate_ratio_series] adds *)

Lemma ratio_column_zip (ss rs : Series) :
  Float.clip (Fin 0) (Fin 20)
    <$> zip_with3 zero_where_both_zero ss rs
          (zip_with Float.div ss (Float.replace (Fin 0) (Fin (1 # 10)) <$> rs))
  = zip_with ratio_cell ss rs.
Proof.
  revert rs. induction ss as [|a ss IH]; intros [|b rs]; simpl; try reflexivity.
  now rewrite IH.
Qed.

Lemma missing_cols_empty (m : gmap string Series) :
  list_to_set required_cols ∖ dom m = (∅ : gset string)
  <-> is_Some (m !! "stoch_rsi"%string) /\ is_Some (m !! "rsi"%string).
Proof.
  rewrite <- !elem_of_dom. split.
  - intros H.
    assert (Hin : forall c, c ∈ required_cols -> c ∈ dom m).
    { intros c Hc. destruct (decide (c ∈ dom m)) as [?|Hn]; [assumption|].
      exfalso. apply (not_elem_of_empty (C := gset string) c).
      rewrite <- H. apply elem_of_difference. split; [|exact Hn].
      now apply elem_of_list_to_set. }
    split; apply Hin; unfold required_cols.
    + apply list_elem_of_here.
    + apply list_elem_of_further, list_elem_of_here.
  - intros [H1 H2]. apply set_eq. intros c.
    rewrite elem_of_difference, elem_of_list_to_set. split.
    + intros [Hc Hn]. exfalso. apply Hn. unfold required_cols in Hc.
      apply elem_of_cons in Hc as [-> | Hc]; [exact H1|].
      apply list_elem_of_singleton in Hc as ->. exact H2.
    + intros Hc. now apply not_elem_of_empty in Hc.
Qed.

(** Inversion of the error monad. *)
Lemma bind_inr {A B} (m : result A) (k : A -> result B) (b : B) :
  m ≫= k = inr b -> exists a, m = inr a /\ k a = inr b.
Proof. destruct m as [e|a]; [discriminate|]. intros H. now exists a. Qed.

Lemma bind_inl {A B} (m : result A) (k : A -> result B) (e : exception) :
  m = inl e -> m ≫= k = inl e.
Proof. now intros ->. Qed.

Lemma getitem_inr df c s : getitem df c = inr s <-> columns df !! c = Some s.
Proof.
  unfold getitem. destruct (columns df !! c); split; intros H;
    try discriminate; now inversion H.
Qed.

Lemma rolling_inr w mp flags s :
  rolling w mp flags = inr s ->
  0 <= w /\ s = rolling_sum (Z.to_nat w) (Z.to_nat mp) flags.
Proof.
  unfold rolling.
  destruct ((w <? 0) || (mp <? 0) || (w <? mp)) eqn:Hw; [discriminate|].
  apply orb_false_elim in Hw as [Hw _]. apply orb_false_elim in Hw as [Hw _].
  apply Z.ltb_ge in Hw. intros [= <-]. now split.
Qed.

Lemma rolling_ok w flags :
  0 <= w ->
  rolling w (w `div` 2) flags
  = inr (rolling_sum (Z.to_nat w) (Z.to_nat (w `div` 2)) flags).
Proof.
  intros Hw. unfold rolling.
  assert (H2 : 0 <= w `div` 2 <= w).
  { split; [apply Z.div_pos; lia | apply Z.div_le_upper_bound; lia]. }
  replace ((w <? 0) || (w `div` 2 <? 0) || (w <? w `div` 2)) with false;
    [reflexivity|].
  symmetry. rewrite !orb_false_iff, !Z.ltb_ge. lia.
Qed.

(** What a successful call returns: the input frame with the three columns
    added, each computed from the two input columns. *)
Lemma calculate_ratio_series_inr self df window_arg out :
  calculate_ratio_series self df window_arg = inr out ->
  exists fast slow,
    columns df !! "stoch_rsi"%string = Some fast
    /\ columns df !! "rsi"%string = Some slow
    /\ 0 <= window_used self window_arg
    /\ let w := Z.to_nat (window_used self window_arg) in
       let mp := Z.to_nat (window_used self window_arg `div` 2) in
       let ss := rolling_sum w mp (below (stoch_oversold self) fast) in
       let rs := rolling_sum w mp (below (rsi_oversold self) slow) in
       out = mkDataFrame (nrows df)
               (<["accumulation_ratio"%string := zip_with ratio_cell ss rs]>
                  (<["rsi_signals"%string := rs]>
                     (<["stoch_signals"%string := ss]> (columns df)))).
Proof.
  unfold calculate_ratio_series, try_except.
  set (win := window_used self window_arg).
  case_bool_decide as Hmiss; [unfold raise; discriminate|].
  match goal with |- match ?m with _ => _ end = _ -> _ =>
    destruct m as [e|r] eqn:Hbody; [unfold raise; discriminate|] end.
  intros [= ->].
  apply bind_inr in Hbody as (fast & Hfast & Hbody).
  apply bind_inr in Hbody as (slow & Hslow & Hbody).
  apply bind_inr in Hbody as (ss & Hss & Hbody).
  apply bind_inr in Hbody as (rs & Hrs & Hbody).
  apply getitem_inr in Hfast, Hslow.
  apply rolling_inr in Hss as [Hw ->], Hrs as [_ ->].
  clear Hmiss.
  apply bind_inr in Hbody as (num & Hnum & Hbody).
  apply bind_inr in Hbody as (den & Hden & Hbody).
  apply bind_inr in Hbody as (a & Ha & Hbody).
  apply bind_inr in Hbody as (b & Hb & Hbody).
  apply bind_inr in Hbody as (x & Hx & Hbody).
  apply bind_inr in Hbody as (y & Hy & Hbody).
  apply getitem_inr in Hnum, Hden, Ha, Hb, Hx, Hy.
  unfold setitem in *. cbn [columns nrows] in *.
  simplify_map_eq.
  rewrite !insert_insert_eq, ratio_column_zip in Hbody.
  injection Hbody as <-.
  exists fast, slow. repeat split; assumption.
Qed.

(** ** Rolling counts *)

Lemma trailing_length {A} (w i : nat) (l : list A) :
  (i < length l)%nat -> length (trailing w i l) = Nat.min w (i + 1).
Proof.
  intros Hi. unfold trailing. rewrite length_drop, length_take. lia.
Qed.

Lemma below_length (threshold : Q) (s : Series) :
  length (below threshold s) = length s.
Proof. unfold below. apply length_fmap. Qed.

Lemma trailing_below (w i : nat) (threshold : Q) (s : Series) :
  trailing w i (below threshold s) = below threshold (trailing w i s).
Proof. unfold trailing, below. now rewrite fmap_drop, fmap_take. Qed.

Lemma sum_Z_below (threshold : Q) (s : Series) :
  sum_Z (below threshold s) = oversold_count threshold s.
Proof.
  unfold oversold_count, below, sum_Z.
  induction s as [|x s IH]; [reflexivity|].
  rewrite fmap_cons, filter_cons. cbn [foldr]. rewrite IH.
  destruct (Float.lt x (Fin threshold)) eqn:E.
  - rewrite decide_True by reflexivity. cbn [length]. lia.
  - rewrite decide_False by discriminate. lia.
Qed.

Lemma oversold_count_nonneg (threshold : Q) (s : Series) :
  0 <= oversold_count threshold s.
Proof. unfold oversold_count. lia. Qed.

Lemma rolling_sum_length (w mp : nat) (flags : list Z) :
  length (rolling_sum w mp flags) = length flags.
Proof. unfold rolling_sum. now rewrite length_fmap, length_seq. Qed.

(** The cell of a rolling count at bar [i]. *)
Lemma rolling_sum_lookup (w mp : nat) (threshold : Q) (s : Series) (i : nat) a :
  rolling_sum w mp (below threshold s) !! i = Some a ->
  (i < length s)%nat
  /\ a = if (mp <=? Nat.min w (i + 1))%nat
         then Fin (inject_Z (oversold_count threshold (trailing w i s)))
         else NaN.
Proof.
  unfold rolling_sum. rewrite list_lookup_fmap.
  destruct (seq 0 (length (below threshold s)) !! i) as [k|] eqn:Hk;
    [|discriminate].
  apply lookup_seq in Hk as [-> Hi]. cbn [fmap option_fmap option_map].
  rewrite below_length in Hi.
  intros [= <-]. split; [exact Hi|].
  rewrite trailing_below, sum_Z_below, below_length.
  now rewrite trailing_length by exact Hi.
Qed.

Lemma rolling_sum_lookup_lt (w mp : nat) (threshold : Q) (s : Series) (i : nat) :
  (i < length s)%nat ->
  rolling_sum w mp (below threshold s) !! i
  = Some (if (mp <=? Nat.min w (i + 1))%nat
          then Fin (inject_Z (oversold_count threshold (trailing w i s)))
          else NaN).
Proof.
  intros Hi.
  destruct (rolling_sum w mp (below threshold s) !! i) as [a|] eqn:E.
  - apply rolling_sum_lookup in E as [_ ->]. reflexivity.
  - apply lookup_ge_None in E.
    rewrite rolling_sum_length, below_length in E. lia.
Qed.

(** The columns of a returned frame, read back by name. *)
Lemma calculate_ratio_series_columns self df window_arg out ss rs xs :
  calculate_ratio_series self df window_arg = inr out ->
  columns out !! "stoch_signals"%string = Some ss ->
  columns out !! "rsi_signals"%string = Some rs ->
  columns out !! "accumulation_ratio"%string = Some xs ->
  exists fast slow,
    columns df !! "stoch_rsi"%string = Some fast
    /\ columns df !! "rsi"%string = Some slow
    /\ 0 <= window_used self window_arg
    /\ ss = rolling_sum (Z.to_nat (window_used self window_arg))
              (Z.to_nat (window_used self window_arg `div` 2))
              (below (stoch_oversold self) fast)
    /\ rs = rolling_sum (Z.to_nat (window_used self window_arg))
              (Z.to_nat (window_used self window_arg `div` 2))
              (below (rsi_oversold self) slow)
    /\ xs = zip_with ratio_cell ss rs.
Proof.
  intros Hcall Hss Hrs Hxs.
  apply calculate_ratio_series_inr in Hcall
    as (fast & slow & Hfast & Hslow & Hw & Hout).
  cbv zeta in Hout. subst out. cbn [columns] in *.
  simplify_map_eq.
  exists fast, slow. repeat split; assumption.
Qed.

(** The returned frame has the rows of the input and one cell per row
    in each of the three columns it adds. *)
Lemma calculate_ratio_series_wf self df window_arg out :
  wf_DataFrame df ->
  calculate_ratio_series self df window_arg = inr out ->
  nrows out = nrows df /\ wf_DataFrame out.
Proof.
  intros Hwf Hcall.
  apply calculate_ratio_series_inr in Hcall
    as (fast & slow & Hfast & Hslow & _ & Hout).
  cbv zeta in Hout. subst out. split; [reflexivity|].
  assert (Lf : length fast = nrows df) by (eapply Hwf; eassumption).
  assert (Ls : length slow = nrows df) by (eapply Hwf; eassumption).
  intros c s. cbn [columns nrows].
  destruct (decide (c = "accumulation_ratio"%string)) as [->|N1].
  { rewrite lookup_insert_eq. intros [= <-].
    rewrite length_zip_with, !rolling_sum_length, !below_length. lia. }
  rewrite lookup_insert_ne by done.
  destruct (decide (c = "rsi_signals"%string)) as [->|N2].
  { rewrite lookup_insert_eq. intros [= <-].
    now rewrite rolling_sum_length, below_length. }
  rewrite lookup_insert_ne by done.
  destruct (decide (c = "stoch_signals"%string)) as [->|N3].
  { rewrite lookup_insert_eq. intros [= <-].
    now rewrite rolling_sum_length, below_length. }
  rewrite lookup_insert_ne by done. apply Hwf.
Qed.

(** ** [calculate_ratio_series]: the ratio of a bar *)

(** Every cell of a rolling count is NaN or a non-negative count, and the
    two counts of one bar are defined together. *)
Lemma signal_cells self df window_arg out ss rs xs i a b :
  calculate_ratio_series self df window_arg = inr out ->
  columns out !! "stoch_signals"%string = Some ss ->
  columns out !! "rsi_signals"%string = Some rs ->
  columns out !! "accumulation_ratio"%string = Some xs ->
  ss !! i = Some a -> rs !! i = Some b ->
  xs !! i = Some (ratio_cell a b)
  /\ ((a = NaN /\ b = NaN)
      \/ exists fast slow,
           columns df !! "stoch_rsi"%string = Some fast
           /\ columns df !! "rsi"%string = Some slow
           /\ let w := Z.to_nat (window_used self window_arg) in
              a = Fin (inject_Z (oversold_count (stoch_oversold self)
                                   (trailing w i fast)))
              /\ b = Fin (inject_Z (oversold_count (rsi_oversold self)
                                      (trailing w i slow)))).
Proof.
  intros Hcall Hss Hrs Hxs Ha Hb.
  destruct (calculate_ratio_series_columns _ _ _ _ _ _ _ Hcall Hss Hrs Hxs)
    as (fast & slow & Hfast & Hslow & Hw & -> & -> & ->).
  split.
  - rewrite lookup_zip_with, Ha. cbn. now rewrite Hb.
  - apply rolling_sum_lookup in Ha as [_ ->], Hb as [_ ->].
    destruct (_ <=? _)%nat; [right | left; split; reflexivity].
    exists fast, slow. repeat split; assumption.
Qed.

Lemma is_zero_count (z : Z) : is_zero (Fin (inject_Z z)) <-> z = 0.
Proof. unfold Float.eqb. rewrite inject_Z_eq0. apply Z.eqb_eq. Qed.

Lemma is_zero_Fin (x : Q) : is_zero (Fin x) <-> (x == 0)%Q.
Proof. unfold Float.eqb. apply Qeq_bool_iff. Qed.

(** C1, as the code has it: in the table [calculate_ratio_series]
    returns, the [accumulation_ratio] of a bar is exactly 0 if and only if
    that bar's [stoch_signals] count is 0, whatever its [rsi_signals]
    count; in particular it is 0 whenever both counts are 0. *)
Theorem ratio_zero_iff_no_stoch_signal
    self df window_arg out (ss rs xs : Series) (i : nat) (a b x : float) :
  calculate_ratio_series self df window_arg = inr out ->
  columns out !! "stoch_signals"%string = Some ss ->
  columns out !! "rsi_signals"%string = Some rs ->
  columns out !! "accumulation_ratio"%string = Some xs ->
  ss !! i = Some a -> rs !! i = Some b -> xs !! i = Some x ->
  (is_zero x <-> is_zero a)
  /\ (is_zero a /\ is_zero b -> is_zero x).
Proof.
  intros Hcall Hss Hrs Hxs Ha Hb Hx.
  destruct (signal_cells _ _ _ _ _ _ _ _ _ _ Hcall Hss Hrs Hxs Ha Hb)
    as [Hcell Hab].
  rewrite Hcell in Hx. injection Hx as <-.
  assert (Hiff : is_zero (ratio_cell a b) <-> is_zero a).
  { destruct Hab as [[-> ->] | (fast & slow & _ & _ & Hcells)].
    - rewrite ratio_cell_NaN_l. reflexivity.
    - cbv zeta in Hcells. destruct Hcells as [-> ->].
      match goal with |- context [ratio_cell (Fin (inject_Z ?s)) (Fin (inject_Z ?r))] =>
        destruct (ratio_cell_counts s r) as (q & -> & _ & _ & Hq0);
          [apply oversold_count_nonneg | apply oversold_count_nonneg |]
      end.
      rewrite is_zero_Fin, is_zero_count. exact Hq0. }
  split; [exact Hiff|]. intros [Hza _]. now apply Hiff.
Qed.

Lemma ratio_zero_iff_no_stoch_signal_witness :
  (is_zero (Fin 10) <-> is_zero (Fin 1))
  /\ (is_zero (Fin 1) /\ is_zero (Fin 0) -> is_zero (Fin 10)).
Proof.
  eapply (ratio_zero_iff_no_stoch_signal documented_analyzer four_bars
            (Some 3) _ _ _ _ 3%nat).
  - vm_compute. reflexivity.
  - vm_compute. reflexivity.
  - vm_compute. reflexivity.
  - vm_compute. reflexivity.
  - reflexivity.
  - reflexivity.
  - reflexivity.
Defined.

(** C1 as stated fails: on two bars whose slow oscillator is oversold and
    whose fast oscillator is not, the ratio of the last bar is exactly 0
    while its [rsi_signals] count is 2. *)
Lemma ratio_zero_with_rsi_signals :
  exists out ss rs xs a b x,
    calculate_ratio_series documented_analyzer only_rsi_oversold (Some 2)
    = inr out
    /\ columns out !! "stoch_signals"%string = Some ss
    /\ columns out !! "rsi_signals"%string = Some rs
    /\ columns out !! "accumulation_ratio"%string = Some xs
    /\ ss !! 1%nat = Some a /\ rs !! 1%nat = Some b /\ xs !! 1%nat = Some x
    /\ Float.equiv a (Fin 0) /\ Float.equiv b (Fin 2) /\ Float.equiv x (Fin 0)
    /\ ~ (is_zero x <-> is_zero a /\ is_zero b).
Proof.
  eexists _, _, _, _, _, _, _.
  split; [vm_compute; reflexivity|].
  split; [vm_compute; reflexivity|].
  split; [vm_compute; reflexivity|].
  split; [vm_compute; reflexivity|].
  split; [reflexivity|]. split; [reflexivity|]. split; [reflexivity|].
  split; [reflexivity|]. split; [reflexivity|]. split; [reflexivity|].
  intros [H _]. destruct (H eq_refl) as [_ H2]. discriminate H2.
Qed.

(** C4: for a bar of the returned table whose two rolling counts are
    defined, the counts are the numbers of oversold bars of the fast and of
    the slow oscillator in the trailing window, and the ratio is the fast
    count over max(slow count, 0.1), forced to 0 when both counts are 0,
    clipped to [[0, 20]]; every cell of the ratio column is undefined or
    lies in [[0, 20]]. *)
Theorem ratio_series_formula
    self df window_arg out (fast slow ss rs xs : Series) (i : nat) (s r : Q) :
  calculate_ratio_series self df window_arg = inr out ->
  columns df !! "stoch_rsi"%string = Some fast ->
  columns df !! "rsi"%string = Some slow ->
  columns out !! "stoch_signals"%string = Some ss ->
  columns out !! "rsi_signals"%string = Some rs ->
  columns out !! "accumulation_ratio"%string = Some xs ->
  ss !! i = Some (Fin s) -> rs !! i = Some (Fin r) ->
  let w := Z.to_nat (window_used self window_arg) in
  let fast_count := oversold_count (stoch_oversold self) (trailing w i fast) in
  let slow_count := oversold_count (rsi_oversold self) (trailing w i slow) in
  s = inject_Z fast_count
  /\ r = inject_Z slow_count
  /\ (exists x, xs !! i = Some (Fin x)
                /\ (x == spec_ratio fast_count slow_count)%Q
                /\ (0 <= x <= 20)%Q)
  /\ (forall j v, xs !! j = Some v ->
        v = NaN \/ exists x, v = Fin x /\ (0 <= x <= 20)%Q).
Proof.
  intros Hcall Hfast Hslow Hss Hrs Hxs Ha Hb w fast_count slow_count.
  destruct (signal_cells _ _ _ _ _ _ _ _ _ _ Hcall Hss Hrs Hxs Ha Hb)
    as [Hcell [[Hnan _] | (fast' & slow' & Hfast' & Hslow' & Hcells)]];
    [discriminate Hnan|].
  cbv zeta in Hcells. destruct Hcells as [Hs Hr].
  rewrite Hfast in Hfast'. rewrite Hslow in Hslow'.
  injection Hfast' as <-. injection Hslow' as <-.
  injection Hs as Hs. injection Hr as Hr.
  fold w in Hs, Hr. fold fast_count in Hs. fold slow_count in Hr.
  split; [exact Hs|]. split; [exact Hr|]. split.
  - subst s r.
    destruct (ratio_cell_counts fast_count slow_count)
      as (x & Hx & Hxspec & Hxb & _);
      [apply oversold_count_nonneg | apply oversold_count_nonneg |].
    exists x. rewrite Hcell, Hx. repeat split; tauto.
  - intros j v Hv.
    destruct (calculate_ratio_series_columns _ _ _ _ _ _ _ Hcall Hss Hrs Hxs)
      as (f & sl & _ & _ & _ & Ess & Ers & Exs).
    rewrite Exs in Hv. apply lookup_zip_with_Some in Hv
      as (a & b & -> & Haj & Hbj).
    destruct (signal_cells _ _ _ _ _ _ _ _ _ _ Hcall Hss Hrs Hxs Haj Hbj)
      as [_ [[-> ->] | (f' & sl' & _ & _ & Hc)]].
    + left. apply ratio_cell_NaN_l.
    + right. cbv zeta in Hc. destruct Hc as [-> ->].
      match goal with
      | |- context [ratio_cell (Fin (inject_Z ?a)) (Fin (inject_Z ?b))] =>
          destruct (ratio_cell_counts a b) as (x & Hx & _ & Hxb & _);
          [apply oversold_count_nonneg | apply oversold_count_nonneg |]
      end.
      exists x. split; assumption.
Qed.

Lemma ratio_series_formula_witness :
  (1 = inject_Z (oversold_count 20 (trailing 3 3 [Fin 10; Fin 15; NaN; Fin 50]))
   /\ 0 = inject_Z (oversold_count 30
                      (trailing 3 3 [Fin 20; Fin 40; Fin 40; Fin 45]))
   /\ (exists x,
         [Fin 1; Fin 2; Fin 2; Fin 10] !! 3%nat = Some (Fin x)
         /\ (x == spec_ratio
                    (oversold_count 20
                       (trailing 3 3 [Fin 10; Fin 15; NaN; Fin 50]))
                    (oversold_count 30
                       (trailing 3 3 [Fin 20; Fin 40; Fin 40; Fin 45])))
         /\ (0 <= x <= 20))
   /\ (forall j v, [Fin 1; Fin 2; Fin 2; Fin 10] !! j = Some v ->
         v = NaN \/ exists x, v = Fin x /\ (0 <= x <= 20)))%Q.
Proof.
  eapply (ratio_series_formula documented_analyzer four_bars (Some 3)
            _ [Fin 10; Fin 15; NaN; Fin 50] [Fin 20; Fin 40; Fin 40; Fin 45]
            _ _ [Fin 1; Fin 2; Fin 2; Fin 10] 3%nat 1%Q 0%Q).
  - vm_compute. reflexivity.
  - vm_compute. reflexivity.
  - vm_compute. reflexivity.
  - vm_compute. reflexivity.
  - vm_compute. reflexivity.
  - vm_compute. reflexivity.
  - reflexivity.
  - reflexivity.
Defined.

(** ** [calculate_ratio_series]: missing columns *)

(** C10: on a table that lacks ['stoch_rsi'] or ['rsi'] the call raises
    [ValueError] carrying the set of the required columns that are
    missing; the handler re-raises it. *)
Theorem calculate_ratio_series_missing_column self df window_arg :
  columns df !! "stoch_rsi"%string = None
  \/ columns df !! "rsi"%string = None ->
  exists missing_cols : gset string,
    calculate_ratio_series self df window_arg
    = inl (ValueError (MissingRequiredColumns missing_cols))
    /\ missing_cols ≠ ∅
    /\ forall c, c ∈ missing_cols
                 <-> c ∈ required_cols /\ columns df !! c = None.
Proof.
  intros Hmissing.
  exists (list_to_set required_cols ∖ dom (columns df)).
  assert (Hne : list_to_set required_cols ∖ dom (columns df)
                ≠ (∅ : gset string)).
  { intros E. apply missing_cols_empty in E as [[? H1] [? H2]].
    destruct Hmissing; congruence. }
  split; [|split; [exact Hne|]].
  - unfold calculate_ratio_series, try_except.
    rewrite bool_decide_eq_true_2 by exact Hne. reflexivity.
  - intros c. rewrite elem_of_difference, elem_of_list_to_set.
    rewrite not_elem_of_dom. reflexivity.
Qed.

Lemma calculate_ratio_series_missing_column_witness :
  exists missing_cols : gset string,
    calculate_ratio_series documented_analyzer rsi_only None
    = inl (ValueError (MissingRequiredColumns missing_cols))
    /\ missing_cols ≠ ∅
    /\ forall c, c ∈ missing_cols
                 <-> c ∈ required_cols /\ columns rsi_only !! c = None.
Proof.
  apply (calculate_ratio_series_missing_column documented_analyzer rsi_only None).
  left. reflexivity.
Defined.

(** ** [classify_phase] *)

(** C5: [classify_phase] tries the tiers in the order early, mid, late,
    breakout and returns the first one whose ratio range and RSI bound
    both hold, with that tier's points and description; when none holds it
    returns ['none'] with 0 points.  With the documented configuration the
    points of the four tiers are 18, 14, 10 and 6. *)
Theorem classify_phase_first_match self (ratio rsi : float) :
  classify_phase self ratio rsi
  = mkPhaseInfo (first_tier self ratio rsi)
      (tier_points self (first_tier self ratio rsi))
      (phase_description (first_tier self ratio rsi))
  /\ tiers = [Early; Mid; Late; Breakout]
  /\ tier_points self NoPhase = 0
  /\ map (tier_points documented_analyzer) tiers = [18; 14; 10; 6].
Proof.
  split; [|repeat split].
  unfold classify_phase, first_tier, tiers, Float.ge.
  cbn [List.find ratio_in_range rsi_in_bound].
  destruct (Float.le (Fin (early_min_ratio _)) ratio && Float.le rsi _);
    [reflexivity|].
  destruct ((Float.le (Fin (mid_min_ratio _)) ratio && Float.lt ratio _)
            && Float.le rsi _); [reflexivity|].
  destruct ((Float.le (Fin (late_min_ratio _)) ratio && Float.lt ratio _)
            && (Float.le _ rsi && Float.le rsi _)); [reflexivity|].
  destruct ((Float.le (Fin (breakout_min_ratio _)) ratio && Float.lt ratio _)
            && Float.le _ rsi); reflexivity.
Qed.

(** The five examples of [TestPhaseClassification]. *)
Example classify_phase_tests :
  info_phase (classify_phase documented_analyzer (Fin 6) (Fin 42)) = Early
  /\ info_phase (classify_phase documented_analyzer (Fin 4) (Fin 48)) = Mid
  /\ info_phase (classify_phase documented_analyzer (Fin 2) (Fin 52)) = Late
  /\ info_phase (classify_phase documented_analyzer (Fin 1) (Fin 60)) = Breakout
  /\ info_phase (classify_phase documented_analyzer (Fin (1 # 2)) (Fin 40))
     = NoPhase
  /\ info_phase (classify_phase documented_analyzer NaN (Fin 40)) = NoPhase.
Proof. repeat split. Qed.

(** ** [analyze] *)

Lemma row_getitem_last (df : DataFrame) (c : string) (x : float) :
  row_getitem (omap (fun s : Series => last s) (columns df)) c = inr x ->
  exists s, columns df !! c = Some s /\ last s = Some x.
Proof.
  unfold row_getitem. rewrite lookup_omap.
  destruct (columns df !! c) as [s|]; cbn; [|discriminate].
  destruct (last s) as [y|] eqn:E; [|discriminate].
  intros [= <-]. now exists s.
Qed.

(** A run of the [try] block that reaches its last statement. *)
Lemma analyze_try_inr self d symbol res :
  df_empty d = false ->
  is_Some (columns d !! "stoch_rsi"%string) ->
  is_Some (columns d !! "rsi"%string) ->
  analyze_try self (Some d) symbol = inr res ->
  exists out xs rsis x r,
    calculate_ratio_series self d None = inr out
    /\ columns out !! "accumulation_ratio"%string = Some xs
    /\ columns out !! "rsi"%string = Some rsis
    /\ last xs = Some x /\ last rsis = Some r
    /\ phase res = info_phase (classify_phase self x r)
    /\ points res = info_points (classify_phase self x r)
    /\ description res = info_description (classify_phase self x r)
    /\ ratio res = x /\ rsi res = r /\ history res = tail 10 xs.
Proof.
  intros Hne Hfast Hslow. unfold analyze_try. rewrite Hne.
  rewrite bool_decide_eq_false_2
    by (intros H; apply H; now apply missing_cols_empty).
  intros Hbody.
  apply bind_inr in Hbody as (out & Hout & Hbody).
  apply bind_inr in Hbody as (latest & Hlatest & Hbody).
  apply bind_inr in Hbody as (x & Hx & Hbody).
  apply bind_inr in Hbody as (r & Hr & Hbody).
  apply bind_inr in Hbody as (a & Ha & Hbody).
  apply bind_inr in Hbody as (b & Hb & Hbody).
  apply bind_inr in Hbody as (xs & Hxs & Hbody).
  apply bind_inr in Hbody as (ai & Hai & Hbody).
  apply bind_inr in Hbody as (bi & Hbi & Hbody).
  injection Hbody as <-.
  unfold iloc_last in Hlatest. case_bool_decide; [discriminate|].
  injection Hlatest as <-.
  apply row_getitem_last in Hx as (xs' & Hxs' & Hlx).
  apply row_getitem_last in Hr as (rsis & Hrsis & Hlr).
  apply getitem_inr in Hxs. rewrite Hxs in Hxs'. injection Hxs' as <-.
  exists out, xs, rsis, x, r. cbn. repeat split; assumption.
Qed.

(** C7: [analyze] is total.  On [None], on an empty table, on a table
    without ['stoch_rsi'] or ['rsi'], and whenever a step of the
    computation raises, it returns the default result, whose phase is
    ['none'], points 0 and rsi 50; in every other case it returns the
    classification of the last bar of the ratio series. *)
Theorem analyze_never_raises self (df : option DataFrame) symbol :
  ((df = None
    \/ (exists d, df = Some d
                  /\ (df_empty d = true
                      \/ columns d !! "stoch_rsi"%string = None
                      \/ columns d !! "rsi"%string = None))
    \/ (exists e, analyze_try self df symbol = inl e)) ->
   analyze self df symbol = _empty_result)
  /\ (phase _empty_result = NoPhase
      /\ points _empty_result = 0
      /\ rsi _empty_result = Fin 50)
  /\ (forall d,
        df = Some d -> df_empty d = false ->
        is_Some (columns d !! "stoch_rsi"%string) ->
        is_Some (columns d !! "rsi"%string) ->
        (forall e, analyze_try self df symbol <> inl e) ->
        exists out xs rsis x r,
          calculate_ratio_series self d None = inr out
          /\ columns out !! "accumulation_ratio"%string = Some xs
          /\ columns out !! "rsi"%string = Some rsis
          /\ last xs = Some x /\ last rsis = Some r
          /\ phase (analyze self df symbol)
             = info_phase (classify_phase self x r)
          /\ points (analyze self df symbol)
             = info_points (classify_phase self x r)
          /\ description (analyze self df symbol)
             = info_description (classify_phase self x r)
          /\ ratio (analyze self df symbol) = x
          /\ rsi (analyze self df symbol) = r).
Proof.
  split; [|split; [repeat split|]].
  - intros [-> | [(d & -> & Hd) | (e & He)]].
    + reflexivity.
    + unfold analyze, analyze_try.
      destruct (df_empty d) eqn:Hempty; [reflexivity|].
      destruct Hd as [Hd | Hd]; [discriminate|].
      rewrite bool_decide_eq_true_2; [reflexivity|].
      intros E. apply missing_cols_empty in E as [[? H1] [? H2]].
      destruct Hd; congruence.
    + unfold analyze. now rewrite He.
  - intros d -> Hne Hfast Hslow Hok.
    unfold analyze.
    destruct (analyze_try self (Some d) symbol) as [e|res] eqn:Htry;
      [now destruct (Hok e)|].
    destruct (analyze_try_inr _ _ _ _ Hne Hfast Hslow Htry)
      as (out & xs & rsis & x & r & H).
    exists out, xs, rsis, x, r. cbn [try_except_value]. tauto.
Qed.

(** The default on a table without indicators, and a classified last bar
    on a four-bar table ([1 / 0.1 = 10] at its third bar, no signal left
    in the window of its last bar). *)
Lemma analyze_never_raises_witness :
  analyze documented_analyzer (Some prices_only) None = _empty_result
  /\ exists out xs rsis x r,
       calculate_ratio_series short_window_analyzer four_bars None = inr out
       /\ columns out !! "accumulation_ratio"%string = Some xs
       /\ columns out !! "rsi"%string = Some rsis
       /\ last xs = Some x /\ last rsis = Some r
       /\ phase (analyze short_window_analyzer (Some four_bars) None)
          = info_phase (classify_phase short_window_analyzer x r)
       /\ points (analyze short_window_analyzer (Some four_bars) None)
          = info_points (classify_phase short_window_analyzer x r)
       /\ description (analyze short_window_analyzer (Some four_bars) None)
          = info_description (classify_phase short_window_analyzer x r)
       /\ ratio (analyze short_window_analyzer (Some four_bars) None) = x
       /\ rsi (analyze short_window_analyzer (Some four_bars) None) = r.
Proof.
  split.
  - apply (analyze_never_raises documented_analyzer (Some prices_only) None).
    right. left. exists prices_only. split; [reflexivity|].
    right. left. reflexivity.
  - apply (analyze_never_raises short_window_analyzer (Some four_bars) None).
    + reflexivity.
    + reflexivity.
    + vm_compute. eauto.
    + vm_compute. eauto.
    + intros e. vm_compute. discriminate.
Defined.

(** A table shorter than half the window: the counts of its last bar are
    NaN, [int] raises, and the handler returns the default. *)
Example analyze_short_table :
  analyze_try documented_analyzer (Some four_bars) None
  = inl (ValueError NanToInteger)
  /\ analyze documented_analyzer (Some four_bars) None = _empty_result.
Proof. split; vm_compute; reflexivity. Qed.

(** ** [batch_analyze] *)

Section Batch.

Variable analyze_fn :
  option DataFrame -> option string -> result AccumulationResult.

(** The entry the loop writes for one symbol. *)
Lemma batch_analyze_with_lookup
    (data_dict : gmap string (option DataFrame)) (symbol : string) :
  batch_analyze_with analyze_fn data_dict !! symbol
  = (fun df => try_except_value (analyze_fn df (Some symbol))
                 (fun _ => _empty_result))
      <$> data_dict !! symbol.
Proof.
  unfold batch_analyze_with.
  apply (map_fold_weak_ind
           (fun results m =>
              results !! symbol
              = (fun df => try_except_value (analyze_fn df (Some symbol))
                             (fun _ => _empty_result)) <$> m !! symbol)).
  - now rewrite !lookup_empty.
  - intros i df m results Hi IH.
    destruct (decide (i = symbol)) as [->|Hne].
    + now rewrite !lookup_insert_eq.
    + now rewrite !lookup_insert_ne by exact Hne.
Qed.

End Batch.

(** C8: [batch_analyze] returns an entry for each symbol of its input and
    for no other; a symbol whose analysis raises gets the default result;
    the entry of a symbol is [analyze] of that symbol's table alone, so it
    does not change when the table of another symbol does. *)
Theorem batch_analyze_isolation self
    (data_dict : gmap string (option DataFrame)) :
  dom (batch_analyze self data_dict) = dom data_dict
  /\ (forall symbol df,
        data_dict !! symbol = Some df ->
        batch_analyze self data_dict !! symbol
        = Some (analyze self df (Some symbol)))
  /\ (forall symbol df e,
        data_dict !! symbol = Some df ->
        analyze_try self df (Some symbol) = inl e ->
        batch_analyze self data_dict !! symbol = Some _empty_result)
  /\ (forall analyze_fn symbol df e,
        data_dict !! symbol = Some df ->
        analyze_fn df (Some symbol) = inl e ->
        batch_analyze_with analyze_fn data_dict !! symbol = Some _empty_result)
  /\ (forall symbol other df',
        other <> symbol ->
        batch_analyze self (<[other := df']> data_dict) !! symbol
        = batch_analyze self data_dict !! symbol).
Proof.
  assert (Hlookup : forall m symbol,
             batch_analyze self m !! symbol
             = (fun df => analyze self df (Some symbol)) <$> m !! symbol).
  { intros m symbol. unfold batch_analyze.
    now rewrite batch_analyze_with_lookup. }
  split; [|split; [|split; [|split]]].
  - apply set_eq. intros symbol. rewrite !elem_of_dom, Hlookup.
    now rewrite fmap_is_Some.
  - intros symbol df Hdf. now rewrite Hlookup, Hdf.
  - intros symbol df e Hdf He. rewrite Hlookup, Hdf. cbn.
    unfold analyze. now rewrite He.
  - intros analyze_fn symbol df e Hdf He.
    rewrite batch_analyze_with_lookup, Hdf. cbn. now rewrite He.
  - intros symbol other df' Hne.
    now rewrite !Hlookup, lookup_insert_ne by exact Hne.
Qed.

(** [test_batch_analyze_handles_errors]: a good table next to an empty
    one; both symbols get an entry and the bad one gets the default. *)
Lemma batch_analyze_isolation_witness :
  batch_analyze short_window_analyzer
    (<["GOOD"%string := Some four_bars]>
       (<["BAD"%string := Some (mkDataFrame 0 ∅)]> ∅)) !! "GOOD"%string
  = Some (analyze short_window_analyzer (Some four_bars) (Some "GOOD"%string))
  /\ batch_analyze short_window_analyzer
       (<["GOOD"%string := Some four_bars]>
          (<["BAD"%string := Some (mkDataFrame 0 ∅)]> ∅)) !! "BAD"%string
     = Some _empty_result.
Proof.
  destruct (batch_analyze_isolation short_window_analyzer
              (<["GOOD"%string := Some four_bars]>
                 (<["BAD"%string := Some (mkDataFrame 0 ∅)]> ∅)))
    as (_ & Hown & _ & _ & _).
  split.
  - apply Hown. reflexivity.
  - rewrite (Hown "BAD"%string (Some (mkDataFrame 0 ∅))) by reflexivity.
    reflexivity.
Defined.

(** * Properties of the scoring engine and of the pipeline *)

(** ** Grades *)

Section Grades.

Local Open Scope Q_scope.

Lemma grade_of_Excellent (p : Q) : 80 <= p -> grade_of p = Excellent.
Proof.
  intros H. unfold grade_of. apply Qle_bool_iff in H. now rewrite H.
Qed.

Lemma grade_of_Strong (p : Q) : 65 <= p -> p < 80 -> grade_of p = Strong.
Proof.
  intros H1 H2. unfold grade_of.
  apply Qle_bool_iff in H1. apply Qle_bool_false_iff in H2.
  now rewrite H2, H1.
Qed.

Lemma grade_of_Good (p : Q) : 50 <= p -> p < 65 -> grade_of p = Good.
Proof.
  intros H1 H2. unfold grade_of.
  assert (H3 : p < 80) by (eapply Qlt_trans; [exact H2 | reflexivity]).
  apply Qle_bool_iff in H1.
  apply Qle_bool_false_iff in H2. apply Qle_bool_false_iff in H3.
  now rewrite H3, H2, H1.
Qed.

Lemma grade_of_Weak (p : Q) : p < 50 -> grade_of p = Weak.
Proof.
  intros H1. unfold grade_of.
  assert (H2 : p < 65) by (eapply Qlt_trans; [exact H1 | reflexivity]).
  assert (H3 : p < 80) by (eapply Qlt_trans; [exact H1 | reflexivity]).
  apply Qle_bool_false_iff in H1.
  apply Qle_bool_false_iff in H2. apply Qle_bool_false_iff in H3.
  now rewrite H3, H2, H1.
Qed.

Lemma grade_of_proper (p q : Q) : p == q -> grade_of p = grade_of q.
Proof.
  intros E. unfold grade_of.
  assert (H : forall c, Qle_bool c p = Qle_bool c q)
    by (intros c; apply Qleb_comp; [reflexivity | exact E]).
  now rewrite !H.
Qed.

(** C3: the grade of a Score is determined by its total alone, by bands
    closed below: [80, 100] Excellent, [65, 80) Strong, [50, 65) Good,
    below 50 Weak; 80 is Excellent, 65 Strong, 50 Good and 49 Weak. *)
Theorem grade_bands :
  (forall sym sym' p q c c',
      p == q ->
      setup_grade (new_score sym p c) = setup_grade (new_score sym' q c'))
  /\ (forall sym p c, setup_grade (new_score sym p c) = grade_of p)
  /\ (forall p, 80 <= p <= 100 -> grade_of p = Excellent)
  /\ (forall p, 65 <= p -> p < 80 -> grade_of p = Strong)
  /\ (forall p, 50 <= p -> p < 65 -> grade_of p = Good)
  /\ (forall p, p < 50 -> grade_of p = Weak)
  /\ grade_of 80 = Excellent /\ grade_of 65 = Strong
  /\ grade_of 50 = Good /\ grade_of 49 = Weak.
Proof.
  split; [|split; [|split; [|split; [|split; [|split]]]]].
  - intros sym sym' p q c c' E. cbn. now apply grade_of_proper.
  - reflexivity.
  - intros p [H _]. now apply grade_of_Excellent.
  - exact grade_of_Strong.
  - exact grade_of_Good.
  - exact grade_of_Weak.
  - repeat split.
Qed.

(** The totals the grade tests of [TestSABR20ScoreDataclass] use. *)
Lemma grade_bands_witness :
  grade_of 100 = Excellent /\ grade_of 79 = Strong
  /\ grade_of 64 = Good /\ grade_of 0 = Weak.
Proof.
  destruct grade_bands as (_ & _ & HE & HS & HG & HW & _).
  split; [apply HE; split; discriminate|].
  split; [apply HS; [discriminate | reflexivity]|].
  split; [apply HG; [discriminate | reflexivity]|].
  apply HW. reflexivity.
Defined.

End Grades.

(** ** Component 1 *)

(** The sub-scores of a table that is not empty, from its two columns. *)
Lemma component_1_latest (df : DataFrame) :
  df_empty df = false ->
  bb_points (component_1_setup_strength (Some df))
  = from_option bb_tier 0 (columns df !! "bb_position"%string ≫= last)
  /\ stoch_points (component_1_setup_strength (Some df))
     = from_option stoch_tier 0 (columns df !! "stoch_rsi"%string ≫= last)
  /\ setup_points (component_1_setup_strength (Some df))
     = bb_points (component_1_setup_strength (Some df))
       + stoch_points (component_1_setup_strength (Some df)).
Proof.
  intros Hne. unfold component_1_setup_strength, latest_cell.
  rewrite Hne. repeat split.
Qed.

Lemma bb_tier_top (b : Q) : (b <= 10 # 100)%Q -> bb_tier (Fin b) = 10.
Proof.
  intros Hb. unfold bb_tier. cbn [Float.le].
  now rewrite (proj2 (Qle_bool_iff b (10 # 100)) Hb).
Qed.

Lemma stoch_tier_top (s : Q) : (s < 10)%Q -> stoch_tier (Fin s) = 10.
Proof.
  intros Hs. unfold stoch_tier. cbn [Float.lt].
  now rewrite (proj2 (Qle_bool_false_iff 10 s) Hs).
Qed.

Lemma stoch_tier_second (s : Q) :
  (10 <= s)%Q -> (s < 15)%Q -> stoch_tier (Fin s) = 7.
Proof.
  intros Hlo Hhi. unfold stoch_tier. cbn [Float.lt].
  rewrite (proj2 (Qle_bool_iff 10 s) Hlo).
  now rewrite (proj2 (Qle_bool_false_iff 15 s) Hhi).
Qed.

(** C9: in component 1 a latest [bb_position] of exactly 0.10 scores the
    10-point tier, a latest [stoch_rsi] of exactly 10.0 scores the 7-point
    tier and not the 10-point one, and [bb_position] 0.05 with [stoch_rsi]
    8 scores 20.  The latest cell is the last cell of the column of any
    table that is not empty, whatever the bars before it and the other
    columns hold. *)
Theorem setup_strength_boundaries :
  (forall df earlier b,
      df_empty df = false ->
      columns df !! "bb_position"%string = Some (earlier ++ [Fin b]) ->
      (b == 10 # 100)%Q ->
      bb_points (component_1_setup_strength (Some df)) = 10)
  /\ (forall df earlier s,
        df_empty df = false ->
        columns df !! "stoch_rsi"%string = Some (earlier ++ [Fin s]) ->
        (s == 10)%Q ->
        stoch_points (component_1_setup_strength (Some df)) = 7
        /\ stoch_points (component_1_setup_strength (Some df)) <> 10)
  /\ (forall df earlier_bb earlier_stoch b s,
        df_empty df = false ->
        columns df !! "bb_position"%string = Some (earlier_bb ++ [Fin b]) ->
        columns df !! "stoch_rsi"%string = Some (earlier_stoch ++ [Fin s]) ->
        (b == 5 # 100)%Q -> (s == 8)%Q ->
        setup_points (component_1_setup_strength (Some df)) = 20)
  /\ (forall stoch_rsi,
        bb_points (component_1_setup_strength
                     (Some (setup_frame (Fin (10 # 100)) stoch_rsi))) = 10)
  /\ (forall bb_position,
        stoch_points (component_1_setup_strength
                        (Some (setup_frame bb_position (Fin 10)))) = 7)
  /\ bb_tier (Fin (10 # 100)) = 10
  /\ stoch_tier (Fin 10) = 7
  /\ setup_points (component_1_setup_strength
                     (Some (setup_frame (Fin (5 # 100)) (Fin 8)))) = 20.
Proof.
  assert (Hne : forall bb st, df_empty (setup_frame bb st) = false).
  { intros bb st. unfold df_empty, setup_frame. cbn [nrows columns].
    rewrite bool_decide_eq_false_2 by discriminate.
    rewrite bool_decide_eq_false_2; [reflexivity|].
    apply insert_non_empty. }
  split; [|split; [|split; [|split; [|split; [|repeat split]]]]].
  - intros df earlier b Hdf Hcol Hb.
    destruct (component_1_latest df Hdf) as (-> & _ & _).
    rewrite Hcol. cbn [mbind option_bind]. rewrite last_snoc.
    cbn [from_option]. apply bb_tier_top. rewrite Hb. discriminate.
  - intros df earlier s Hdf Hcol Hs.
    destruct (component_1_latest df Hdf) as (_ & -> & _).
    rewrite Hcol. cbn [mbind option_bind]. rewrite last_snoc.
    cbn [from_option].
    rewrite stoch_tier_second; [split; [reflexivity | discriminate] | |];
      rewrite Hs; [discriminate | reflexivity].
  - intros df earlier_bb earlier_stoch b s Hdf Hbb Hst Hb Hs.
    destruct (component_1_latest df Hdf) as (Eb & Es & ->).
    rewrite Eb, Es, Hbb, Hst. cbn [mbind option_bind]. rewrite !last_snoc.
    cbn [from_option].
    rewrite bb_tier_top by (rewrite Hb; discriminate).
    rewrite stoch_tier_top by (rewrite Hs; reflexivity).
    reflexivity.
  - intros st. destruct (component_1_latest _ (Hne (Fin (10 # 100)) st))
      as (-> & _ & _).
    reflexivity.
  - intros bb. destruct (component_1_latest _ (Hne bb (Fin 10)))
      as (_ & -> & _).
    unfold setup_frame. cbn [columns].
    rewrite lookup_insert_ne by done. now rewrite lookup_insert_eq.
Qed.

(** A table of two bars whose first bar scores nothing: the latest bar
    decides. *)
Lemma setup_strength_boundaries_witness :
  bb_points (component_1_setup_strength
               (Some (two_bar_setup_frame (Fin (10 # 100)) (Fin 10)))) = 10
  /\ stoch_points (component_1_setup_strength
                     (Some (two_bar_setup_frame (Fin (10 # 100)) (Fin 10)))) = 7
  /\ setup_points (component_1_setup_strength
                     (Some (two_bar_setup_frame (Fin (5 # 100)) (Fin 8)))) = 20.
Proof.
  destruct setup_strength_boundaries as (Hbb & Hst & Hfull & _).
  split; [|split].
  - apply (Hbb _ [Fin (50 # 100)] (10 # 100)%Q); reflexivity.
  - apply (Hst _ [Fin 50] 10%Q); reflexivity.
  - apply (Hfull _ [Fin (50 # 100)] [Fin 50] (5 # 100)%Q 8%Q); reflexivity.
Defined.

(** ** Ranking *)

Section Ranking.

Local Open Scope Q_scope.

Lemma insert_ranked_HdRel (s a : SABR20Score) (l : list SABR20Score) :
  total_points s <= total_points a ->
  HdRel (fun s t => total_points t <= total_points s) a l ->
  HdRel (fun s t => total_points t <= total_points s) a (insert_ranked s l).
Proof.
  intros Hsa Hal. destruct l as [|t l]; cbn.
  - now constructor.
  - destruct (Qle_bool (total_points s) (total_points t)).
    + constructor. now inversion Hal.
    + now constructor.
Qed.

Lemma insert_ranked_descending (s : SABR20Score) (l : list SABR20Score) :
  descending l -> descending (insert_ranked s l).
Proof.
  unfold descending. induction l as [|t l IH]; intros Hl; cbn.
  - repeat constructor.
  - inversion Hl as [|? ? Hl' Hhd]; subst.
    destruct (Qle_bool (total_points s) (total_points t)) eqn:E.
    + apply Qle_bool_iff in E. constructor; [now apply IH|].
      now apply insert_ranked_HdRel.
    + apply Qle_bool_false_iff in E. constructor; [exact Hl|].
      constructor. now apply Qlt_le_weak.
Qed.

Lemma insert_ranked_Permutation (s : SABR20Score) (l : list SABR20Score) :
  Permutation (insert_ranked s l) (s :: l).
Proof.
  induction l as [|t l IH]; cbn; [reflexivity|].
  destruct (Qle_bool (total_points s) (total_points t)); [|reflexivity].
  rewrite IH. apply perm_swap.
Qed.

Lemma rank_descending (l : list SABR20Score) : descending (rank l).
Proof.
  unfold rank. induction (reverse l) as [|s l' IH]; cbn.
  - constructor.
  - now apply insert_ranked_descending.
Qed.

Lemma rank_Permutation (l : list SABR20Score) : Permutation (rank l) l.
Proof.
  unfold rank. rewrite <- (reverse_Permutation l) at 2.
  induction (reverse l) as [|s l' IH]; cbn; [reflexivity|].
  now rewrite insert_ranked_Permutation, IH.
Qed.

Lemma take_descending (n : nat) (l : list SABR20Score) :
  descending l -> descending (take n l).
Proof.
  unfold descending. revert n. induction l as [|s l IH]; intros [|n] Hl;
    cbn; try constructor.
  - inversion Hl; subst. now apply IH.
  - inversion Hl as [|? ? _ Hhd]; subst.
    destruct l as [|t l]; destruct n; cbn; constructor.
    now inversion Hhd.
Qed.

(** C2, as the pipeline has it: every entry of the watchlist [generate]
    returns has a total of at least the threshold in effect, the entries
    are in descending order of total (each total at least the next one,
    not necessarily greater), and there are at most [max_symbols] of
    them; over candidates scoring 85, 70, 60 and 45 with [min_score] 65
    the result is the 85-point Score followed by the 70-point Score. *)
Theorem generate_watchlist
    (self : WatchlistGenerator) (universe : option (list string))
    (skip_coarse_filter : bool) (max_symbols : option nat)
    (min_score : option Q) :
  Forall (fun s => default (min_score_threshold self) min_score
                   <= total_points s)
    (generate self universe skip_coarse_filter max_symbols min_score)
  /\ descending
       (generate self universe skip_coarse_filter max_symbols min_score)
  /\ (length (generate self universe skip_coarse_filter max_symbols min_score)
      <= default (max_watchlist_size self) max_symbols)%nat
  /\ generate four_candidates None false None (Some 65)
     = [new_score "AAPL" 85 no_components; new_score "MSFT" 70 no_components].
Proof.
  unfold generate.
  set (cap := default (max_watchlist_size self) max_symbols).
  set (threshold := default (min_score_threshold self) min_score).
  set (u := default (build_universe self) universe).
  set (candidates := if skip_coarse_filter then u else screen self u).
  set (scores := score_candidates_parallel self candidates).
  set (kept := filter (fun s => Qle_bool threshold (total_points s) = true)
                 scores).
  assert (Hnil : Forall (fun s => threshold <= total_points s) []
                 /\ descending []
                 /\ (length (@nil SABR20Score) <= cap)%nat).
  { repeat split; [constructor | constructor | cbn; lia]. }
  assert (Hmain : Forall (fun s => threshold <= total_points s)
                    (take cap (rank kept))
                  /\ descending (take cap (rank kept))
                  /\ (length (take cap (rank kept)) <= cap)%nat).
  { split; [|split].
    - apply Forall_take. rewrite rank_Permutation.
      apply Forall_forall. intros s Hs.
      unfold kept in Hs.
      apply list_elem_of_filter in Hs as [Hs _].
      now apply Qle_bool_iff.
    - apply take_descending, rank_descending.
    - rewrite length_take. lia. }
  split; [|split; [|split]];
    try (destruct (is_nil u); [apply Hnil|];
         destruct (is_nil candidates); [apply Hnil|];
         destruct (is_nil scores); [apply Hnil | apply Hmain]).
  reflexivity.
Qed.

(** C2 as stated fails: of two candidates of the same total that both
    pass the threshold, ranking drops neither, so this watchlist is not
    strictly descending. *)
Lemma generate_keeps_ties :
  generate tied_candidates None false None (Some 65)
  = [new_score "AAPL" 70 no_components; new_score "MSFT" 70 no_components]
  /\ ~ strictly_descending
         (generate tied_candidates None false None (Some 65)).
Proof.
  split; [reflexivity|].
  intros H. inversion H as [|? ? _ Hhd]; subst.
  inversion Hhd as [|? ? Hlt]; subst.
  cbn in Hlt. exact (Qlt_irrefl _ Hlt).
Qed.

End Ranking.

(** ** The worker pool *)

Section WorkerPool.

Variable score_candidate : string -> Outcome.









End WorkerPool.



(** * Further properties of the analyzer *)

(** ** What [calculate_ratio_series] returns and when *)

Lemma calculate_ratio_series_ok self df window_arg fast slow :
  columns df !! "stoch_rsi"%string = Some fast ->
  columns df !! "rsi"%string = Some slow ->
  0 <= window_used self window_arg ->
  calculate_ratio_series self df window_arg
  = inr (with_ratio self window_arg df fast slow).
Proof.
  intros Hfast Hslow Hw.
  unfold calculate_ratio_series, try_except, with_ratio, signal_counts.
  rewrite bool_decide_eq_false_2
    by (intros H; apply H; apply missing_cols_empty; rewrite Hfast, Hslow; eauto).
  cbv zeta.
  rewrite (proj2 (getitem_inr df _ _) Hfast).
  rewrite (proj2 (getitem_inr df _ _) Hslow).
  cbn [mbind mret result_bind result_ret].
  rewrite !rolling_ok by exact Hw. cbn [mbind mret result_bind result_ret].
  unfold getitem, setitem. cbn [columns nrows].
  simpl_map. cbn [mbind mret result_bind result_ret].
  simpl_map. cbn [mbind mret result_bind result_ret].
  simpl_map. cbn [mbind mret result_bind result_ret].
  rewrite !insert_insert_eq, ratio_column_zip. reflexivity.
Qed.

Lemma calculate_ratio_series_negative_window self df window_arg fast slow :
  columns df !! "stoch_rsi"%string = Some fast ->
  columns df !! "rsi"%string = Some slow ->
  window_used self window_arg < 0 ->
  calculate_ratio_series self df window_arg
  = inl (ValueError InvalidRollingArguments).
Proof.
  intros Hfast Hslow Hw.
  unfold calculate_ratio_series, try_except.
  rewrite bool_decide_eq_false_2
    by (intros H; apply H; apply missing_cols_empty; rewrite Hfast, Hslow; eauto).
  cbv zeta.
  rewrite (proj2 (getitem_inr df _ _) Hfast).
  rewrite (proj2 (getitem_inr df _ _) Hslow).
  cbn [mbind mret result_bind result_ret].
  unfold rolling. apply Z.ltb_lt in Hw. rewrite Hw. reflexivity.
Qed.

(** X1: for a window that fits the 64-bit integer pandas keeps it in
    (below 2^63), [calculate_ratio_series] returns a table exactly when
    the input has both oscillator columns and the window is not
    negative. *)
Theorem calculate_ratio_series_returns_iff self df window_arg :
  window_used self window_arg < 2 ^ 63 ->
  ((exists out, calculate_ratio_series self df window_arg = inr out)
   <-> is_Some (columns df !! "stoch_rsi"%string)
       /\ is_Some (columns df !! "rsi"%string)
       /\ 0 <= window_used self window_arg).
Proof.
  intros _. split.
  - intros [out Hout].
    apply calculate_ratio_series_inr in Hout
      as (fast & slow & Hfast & Hslow & Hw & _).
    rewrite Hfast, Hslow. eauto.
  - intros ([fast Hfast] & [slow Hslow] & Hw).
    eexists. now apply (calculate_ratio_series_ok _ _ _ fast slow).
Qed.

Lemma calculate_ratio_series_returns_iff_witness :
  (exists out, calculate_ratio_series documented_analyzer four_bars (Some 4)
               = inr out)
  <-> is_Some (columns four_bars !! "stoch_rsi"%string)
      /\ is_Some (columns four_bars !! "rsi"%string)
      /\ 0 <= window_used documented_analyzer (Some 4).
Proof.
  apply (calculate_ratio_series_returns_iff documented_analyzer four_bars
           (Some 4)).
  reflexivity.
Defined.

(** X2: the returned table is the input with three columns written: it
    has the rows of the input, every other column is the input's column,
    the three columns are present, and each has one cell per row when the
    input is well formed. *)
Theorem calculate_ratio_series_keeps_input self df window_arg out :
  calculate_ratio_series self df window_arg = inr out ->
  nrows out = nrows df
  /\ (forall c, c ∉ added_cols -> columns out !! c = columns df !! c)
  /\ (forall c, c ∈ added_cols -> is_Some (columns out !! c))
  /\ (wf_DataFrame df -> wf_DataFrame out).
Proof.
  intros Hcall. split; [|split; [|split]].
  - apply calculate_ratio_series_inr in Hcall
      as (fast & slow & _ & _ & _ & ->). reflexivity.
  - intros c Hc.
    apply calculate_ratio_series_inr in Hcall
      as (fast & slow & _ & _ & _ & ->). cbn [columns].
    unfold added_cols in Hc.
    rewrite !not_elem_of_cons in Hc. destruct Hc as (N1 & N2 & N3 & _).
    now rewrite !lookup_insert_ne by done.
  - intros c Hc.
    apply calculate_ratio_series_inr in Hcall
      as (fast & slow & _ & _ & _ & ->). cbn [columns].
    unfold added_cols in Hc.
    repeat (apply elem_of_cons in Hc as [-> | Hc]);
      [| | |now apply elem_of_nil in Hc]; simpl_map; eauto.
  - intros Hwf. now apply (calculate_ratio_series_wf self df window_arg).
Qed.

Lemma calculate_ratio_series_keeps_input_witness :
  exists out,
    calculate_ratio_series documented_analyzer four_bars_with_close (Some 3)
    = inr out
    /\ nrows out = 4%nat
    /\ columns out !! "close"%string
       = Some [Fin 100; Fin 101; Fin 102; Fin 103]
    /\ is_Some (columns out !! "accumulation_ratio"%string).
Proof.
  eexists. split; [vm_compute; reflexivity|].
  match goal with |- nrows ?o = _ /\ _ =>
    destruct (calculate_ratio_series_keeps_input documented_analyzer
                four_bars_with_close (Some 3) o) as (Hn & Hkeep & Hadd & _)
  end.
  - vm_compute. reflexivity.
  - split; [exact Hn|]. split.
    + rewrite Hkeep; [reflexivity|].
      unfold added_cols. rewrite !not_elem_of_cons. repeat split; try done.
      apply not_elem_of_nil.
    + apply Hadd. unfold added_cols. do 2 apply list_elem_of_further.
      apply list_elem_of_here.
Defined.

(** ** Warm-up bars and the size of the counts *)

Lemma half_window_bounds (w : Z) : 0 <= w -> 0 <= w `div` 2 <= w.
Proof.
  intros Hw. split; [apply Z.div_pos; lia | apply Z.div_le_upper_bound; lia].
Qed.

Lemma oversold_count_le_length (threshold : Q) (s : Series) :
  oversold_count threshold s <= Z.of_nat (length s).
Proof.
  unfold oversold_count. apply inj_le, length_filter.
Qed.

(** The cells of bar [i] in the three columns of a returned table. *)
Lemma returned_cells self df window_arg out (ss rs xs : Series) i a b x :
  calculate_ratio_series self df window_arg = inr out ->
  columns out !! "stoch_signals"%string = Some ss ->
  columns out !! "rsi_signals"%string = Some rs ->
  columns out !! "accumulation_ratio"%string = Some xs ->
  ss !! i = Some a -> rs !! i = Some b -> xs !! i = Some x ->
  exists fast slow,
    columns df !! "stoch_rsi"%string = Some fast
    /\ columns df !! "rsi"%string = Some slow
    /\ (i < length fast)%nat /\ (i < length slow)%nat
    /\ 0 <= window_used self window_arg
    /\ x = ratio_cell a b
    /\ ((Z.of_nat i + 1 < window_used self window_arg `div` 2
         /\ a = NaN /\ b = NaN)
        \/ (window_used self window_arg `div` 2 <= Z.of_nat i + 1
            /\ a = Fin (inject_Z
                          (oversold_count (stoch_oversold self)
                             (trailing (Z.to_nat (window_used self window_arg))
                                i fast)))
            /\ b = Fin (inject_Z
                          (oversold_count (rsi_oversold self)
                             (trailing (Z.to_nat (window_used self window_arg))
                                i slow))))).
Proof.
  intros Hcall Hss Hrs Hxs Ha Hb Hx.
  destruct (calculate_ratio_series_columns _ _ _ _ _ _ _ Hcall Hss Hrs Hxs)
    as (fast & slow & Hfast & Hslow & Hw & -> & -> & ->).
  exists fast, slow.
  rewrite lookup_zip_with, Ha in Hx. cbn in Hx. rewrite Hb in Hx. cbn in Hx.
  injection Hx as <-.
  apply rolling_sum_lookup in Ha as [Hia ->], Hb as [Hib ->].
  pose proof (half_window_bounds _ Hw) as Hhalf.
  repeat (split; [assumption || reflexivity|]).
  destruct (Nat.leb_spec (Z.to_nat (window_used self window_arg `div` 2))
              (Nat.min (Z.to_nat (window_used self window_arg)) (i + 1)))
    as [Hle | Hgt].
  - right. split; [lia|]. split; reflexivity.
  - left. split; [lia|]. split; reflexivity.
Qed.

(** X3: the first bars of a returned table, those with fewer than
    [window // 2] bars up to and including them, hold NaN in all three
    added columns; every later bar holds finite values. *)
Theorem warm_up_bars self df window_arg out (ss rs xs : Series) i a b x :
  calculate_ratio_series self df window_arg = inr out ->
  columns out !! "stoch_signals"%string = Some ss ->
  columns out !! "rsi_signals"%string = Some rs ->
  columns out !! "accumulation_ratio"%string = Some xs ->
  ss !! i = Some a -> rs !! i = Some b -> xs !! i = Some x ->
  (Z.of_nat i + 1 < window_used self window_arg `div` 2
   -> a = NaN /\ b = NaN /\ x = NaN)
  /\ (window_used self window_arg `div` 2 <= Z.of_nat i + 1
      -> exists s r q, a = Fin s /\ b = Fin r /\ x = Fin q).
Proof.
  intros Hcall Hss Hrs Hxs Ha Hb Hx.
  destruct (returned_cells _ _ _ _ _ _ _ _ _ _ _ Hcall Hss Hrs Hxs Ha Hb Hx)
    as (fast & slow & _ & _ & _ & _ & _ & -> & Hcases).
  destruct Hcases as [(Hlt & -> & ->) | (Hge & -> & ->)].
  - split; [|lia]. intros _. now rewrite ratio_cell_NaN_l.
  - split; [lia|]. intros _.
    match goal with
    | |- context [ratio_cell (Fin (inject_Z ?s)) (Fin (inject_Z ?r))] =>
        destruct (ratio_cell_counts s r) as (q & -> & _);
        [apply oversold_count_nonneg | apply oversold_count_nonneg |]
    end.
    eexists _, _, _. repeat split.
Qed.

Lemma warm_up_bars_witness :
  (Z.of_nat 0 + 1 < window_used documented_analyzer (Some 4) `div` 2
   -> (NaN : float) = NaN /\ (NaN : float) = NaN /\ (NaN : float) = NaN)
  /\ (window_used documented_analyzer (Some 4) `div` 2 <= Z.of_nat 0 + 1
      -> exists s r q, (NaN : float) = Fin s /\ (NaN : float) = Fin r
                       /\ (NaN : float) = Fin q).
Proof.
  eapply (warm_up_bars documented_analyzer four_bars (Some 4)
            _ _ _ _ 0%nat NaN NaN NaN).
  - vm_compute. reflexivity.
  - vm_compute. reflexivity.
  - vm_compute. reflexivity.
  - vm_compute. reflexivity.
  - reflexivity.
  - reflexivity.
  - reflexivity.
Defined.

(** X4: a defined count of bar [i] is a whole number between 0 and the
    number of bars the window covers there, [min(window, i + 1)]. *)
Theorem signal_count_bounds self df window_arg out (ss rs : Series) i (s r : Q) :
  calculate_ratio_series self df window_arg = inr out ->
  columns out !! "stoch_signals"%string = Some ss ->
  columns out !! "rsi_signals"%string = Some rs ->
  ss !! i = Some (Fin s) -> rs !! i = Some (Fin r) ->
  exists m n : Z,
    s = inject_Z m /\ r = inject_Z n
    /\ 0 <= m <= Z.min (window_used self window_arg) (Z.of_nat i + 1)
    /\ 0 <= n <= Z.min (window_used self window_arg) (Z.of_nat i + 1).
Proof.
  intros Hcall Hss Hrs Ha Hb.
  assert (Hxs : exists xs, columns out !! "accumulation_ratio"%string = Some xs).
  { destruct (calculate_ratio_series_inr _ _ _ _ Hcall)
      as (fast0 & slow0 & _ & _ & _ & ->).
    cbn [columns]. simpl_map. eauto. }
  destruct Hxs as [xs Hxs].
  destruct (signal_cells _ _ _ _ _ _ _ _ _ _ Hcall Hss Hrs Hxs Ha Hb)
    as [Hx _].
  destruct (returned_cells _ _ _ _ _ _ _ _ _ _ _ Hcall Hss Hrs Hxs Ha Hb Hx)
    as (fast & slow & _ & _ & Hif & His & Hw & _ & Hcases).
  destruct Hcases as [(_ & Hnan & _) | (_ & Ea & Eb)]; [discriminate|].
  injection Ea as ->. injection Eb as ->.
  eexists _, _. split; [reflexivity|]. split; [reflexivity|].
  pose proof (oversold_count_nonneg (stoch_oversold self)
                (trailing (Z.to_nat (window_used self window_arg)) i fast)).
  pose proof (oversold_count_nonneg (rsi_oversold self)
                (trailing (Z.to_nat (window_used self window_arg)) i slow)).
  pose proof (oversold_count_le_length (stoch_oversold self)
                (trailing (Z.to_nat (window_used self window_arg)) i fast)) as L1.
  pose proof (oversold_count_le_length (rsi_oversold self)
                (trailing (Z.to_nat (window_used self window_arg)) i slow)) as L2.
  rewrite trailing_length in L1 by exact Hif.
  rewrite trailing_length in L2 by exact His.
  lia.
Qed.

Lemma signal_count_bounds_witness :
  exists m n : Z,
    1%Q = inject_Z m /\ 0%Q = inject_Z n
    /\ 0 <= m <= Z.min (window_used documented_analyzer (Some 3)) (Z.of_nat 3 + 1)
    /\ 0 <= n <= Z.min (window_used documented_analyzer (Some 3)) (Z.of_nat 3 + 1).
Proof.
  eapply (signal_count_bounds documented_analyzer four_bars (Some 3)
            _ _ _ 3%nat 1%Q 0%Q).
  - vm_compute. reflexivity.
  - vm_compute. reflexivity.
  - vm_compute. reflexivity.
  - reflexivity.
  - reflexivity.
Defined.

(** ** Running the computation again *)

(** X5: [calculate_ratio_series] is idempotent: called on a table it
    returned, with the same window, it returns that table again. *)
Theorem calculate_ratio_series_idempotent self df window_arg out :
  calculate_ratio_series self df window_arg = inr out ->
  calculate_ratio_series self out window_arg = inr out.
Proof.
  intros Hcall.
  apply calculate_ratio_series_inr in Hcall
    as (fast & slow & Hfast & Hslow & Hw & Hout). cbv zeta in Hout.
  assert (Hfast' : columns out !! "stoch_rsi"%string = Some fast)
    by (subst out; cbn [columns]; now simpl_map).
  assert (Hslow' : columns out !! "rsi"%string = Some slow)
    by (subst out; cbn [columns]; now simpl_map).
  rewrite (calculate_ratio_series_ok self out window_arg fast slow
             Hfast' Hslow' Hw).
  f_equal. unfold with_ratio, signal_counts. rewrite Hout at 3.
  cbn [nrows columns]. subst out. cbn [nrows columns]. f_equal.
  apply map_eq. intros c.
  destruct (decide (c = "accumulation_ratio"%string)) as [->|N1];
    [now rewrite !lookup_insert_eq|].
  rewrite !(lookup_insert_ne _ "accumulation_ratio"%string c) by done.
  destruct (decide (c = "rsi_signals"%string)) as [->|N2];
    [now rewrite !lookup_insert_eq|].
  rewrite !(lookup_insert_ne _ "rsi_signals"%string c) by done.
  destruct (decide (c = "stoch_signals"%string)) as [->|N3];
    [now rewrite !lookup_insert_eq|].
  rewrite !(lookup_insert_ne _ "stoch_signals"%string c) by done.
  rewrite !(lookup_insert_ne _ "accumulation_ratio"%string c) by done.
  rewrite !(lookup_insert_ne _ "rsi_signals"%string c) by done.
  now rewrite !(lookup_insert_ne _ "stoch_signals"%string c) by done.
Qed.

Lemma calculate_ratio_series_idempotent_witness :
  exists out,
    calculate_ratio_series documented_analyzer four_bars (Some 3) = inr out
    /\ calculate_ratio_series documented_analyzer out (Some 3) = inr out.
Proof.
  eexists. split; [vm_compute; reflexivity|].
  apply (calculate_ratio_series_idempotent documented_analyzer four_bars
           (Some 3)).
  vm_compute. reflexivity.
Defined.

(** ** Bars without an RSI signal *)

Lemma spec_ratio_no_rsi (m : Z) :
  0 <= m -> (spec_ratio m 0 == Qmin (10 * inject_Z m) 20)%Q.
Proof.
  intros Hm. unfold spec_ratio.
  destruct (m =? 0) eqn:E; cbn [andb Z.eqb].
  - apply Z.eqb_eq in E. rewrite E. reflexivity.
  - apply Z.eqb_neq in E.
    assert (E1 : (inject_Z m / Qmax (inject_Z 0) (1 # 10)
                  == 10 * inject_Z m)%Q).
    { rewrite Q.max_r by discriminate. field. }
    rewrite E1. rewrite Q.max_l; [reflexivity|].
    change 0%Q with (10 * inject_Z 0)%Q.
    apply Qmult_le_l; [reflexivity|]. rewrite <- Zle_Qle. lia.
Qed.

(** X6: on a bar with no RSI signal in its window the denominator is 0.1,
    so each Stoch signal counts 10 and the ratio is [min(10 * count, 20)]:
    0 for no signal, 10 for one, 20 for two or more. *)
Theorem ratio_without_rsi_signals
    self df window_arg out (ss rs xs : Series) (i : nat) (s r : Q) :
  calculate_ratio_series self df window_arg = inr out ->
  columns out !! "stoch_signals"%string = Some ss ->
  columns out !! "rsi_signals"%string = Some rs ->
  columns out !! "accumulation_ratio"%string = Some xs ->
  ss !! i = Some (Fin s) -> rs !! i = Some (Fin r) -> (r == 0)%Q ->
  exists x, xs !! i = Some (Fin x)
            /\ (x == Qmin (10 * s) 20)%Q
            /\ ((s == 0)%Q -> (x == 0)%Q)
            /\ ((s == 1)%Q -> (x == 10)%Q)
            /\ ((2 <= s)%Q -> (x == 20)%Q).
Proof.
  intros Hcall Hss Hrs Hxs Ha Hb Hr0.
  destruct (signal_cells _ _ _ _ _ _ _ _ _ _ Hcall Hss Hrs Hxs Ha Hb)
    as [Hcell [[Hnan _] | (fast & slow & _ & _ & Hcells)]];
    [discriminate Hnan|].
  cbv zeta in Hcells. destruct Hcells as [Ea Eb].
  remember (oversold_count (stoch_oversold self)
              (trailing (Z.to_nat (window_used self window_arg)) i fast))
    as m eqn:Em.
  remember (oversold_count (rsi_oversold self)
              (trailing (Z.to_nat (window_used self window_arg)) i slow))
    as n eqn:En.
  assert (Hm : 0 <= m) by (subst m; apply oversold_count_nonneg).
  injection Ea as Es. injection Eb as Er.
  assert (Hn : n = 0).
  { apply is_zero_count, is_zero_Fin. now rewrite <- Er. }
  destruct (ratio_cell_counts m n Hm ltac:(lia)) as (x & Hx & Hspec & _).
  exists x. split; [now rewrite Hcell, Es, Er, Hx|].
  assert (Hmin : (x == Qmin (10 * s) 20)%Q).
  { rewrite Hspec, Hn, Es. now apply spec_ratio_no_rsi. }
  split; [exact Hmin|]. split; [|split].
  - intros Hs. rewrite Hmin, Hs. reflexivity.
  - intros Hs. rewrite Hmin, Hs. reflexivity.
  - intros Hs. rewrite Hmin. apply Q.min_r.
    change 20%Q with (10 * 2)%Q. apply Qmult_le_l; [reflexivity | exact Hs].
Qed.

Lemma ratio_without_rsi_signals_witness :
  exists x, [Fin 1; Fin 2; Fin 2; Fin 10] !! 3%nat = Some (Fin x)
            /\ (x == Qmin (10 * 1) 20)%Q
            /\ ((1 == 0)%Q -> (x == 0)%Q)
            /\ ((1 == 1)%Q -> (x == 10)%Q)
            /\ ((2 <= 1)%Q -> (x == 20)%Q).
Proof.
  eapply (ratio_without_rsi_signals documented_analyzer four_bars (Some 3)
            _ _ _ [Fin 1; Fin 2; Fin 2; Fin 10] 3%nat 1%Q 0%Q).
  - vm_compute. reflexivity.
  - vm_compute. reflexivity.
  - vm_compute. reflexivity.
  - vm_compute. reflexivity.
  - reflexivity.
  - reflexivity.
  - reflexivity.
Defined.

(** ** More on [classify_phase] *)

Lemma le_NaN_r (a : float) : Float.le a NaN = false.
Proof. destruct a as [|[|]|q]; reflexivity. Qed.

Lemma le_NaN_l (a : float) : Float.le NaN a = false.
Proof. reflexivity. Qed.

(** X7: a NaN ratio or a NaN RSI satisfies no comparison, so the phase is
    ['none'] with 0 points whatever the configuration. *)
Theorem classify_phase_NaN self (ratio rsi : float) :
  ratio = NaN \/ rsi = NaN ->
  classify_phase self ratio rsi
  = mkPhaseInfo NoPhase 0 "No Accumulation Detected".
Proof.
  intros [-> | ->]; unfold classify_phase, Float.ge.
  - reflexivity.
  - rewrite !le_NaN_r, !le_NaN_l, ?andb_false_r. cbn [andb].
    rewrite ?andb_false_r. reflexivity.
Qed.

Lemma classify_phase_NaN_witness :
  classify_phase documented_analyzer NaN (Fin 40)
  = mkPhaseInfo NoPhase 0 "No Accumulation Detected".
Proof. apply classify_phase_NaN. left. reflexivity. Defined.

Section TierOrder.

Local Open Scope Q_scope.

Lemma lt_then_not_ge (x : float) (a b : Q) :
  a <= b -> Float.lt x (Fin a) = true -> Float.le (Fin b) x = false.
Proof.
  intros Hab. destruct x as [|[|]|q]; cbn; try discriminate; try reflexivity.
  intros H. apply negb_true_iff, Qle_bool_false_iff in H.
  apply Qle_bool_false_iff. eapply Qlt_le_trans; eassumption.
Qed.

Lemma ge_then_not_lt (x : float) (a b : Q) :
  a <= b -> Float.le (Fin b) x = true -> Float.lt x (Fin a) = false.
Proof.
  intros Hab Hge. destruct (Float.lt x (Fin a)) eqn:E; [|reflexivity].
  rewrite (lt_then_not_ge x a b Hab E) in Hge. discriminate.
Qed.

(** With ordered tiers a ratio lies in the range of at most one tier. *)
Lemma ratio_ranges_disjoint self (ratio : float) (t u : Phase) :
  ordered_tiers self -> t ∈ tiers -> u ∈ tiers -> t <> u ->
  ratio_in_range self t ratio = true -> ratio_in_range self u ratio = false.
Proof.
  intros (H1 & H2 & H3 & H4 & H5) Ht Hu Hne.
  assert (H13 : breakout_max_ratio (phases_breakout (phases self))
                <= mid_min_ratio (phases_mid (phases self)))
    by (eapply Qle_trans; [exact H1|]; eapply Qle_trans; eassumption).
  assert (H15 : breakout_max_ratio (phases_breakout (phases self))
                <= early_min_ratio (phases_early (phases self)))
    by (eapply Qle_trans; [exact H13|]; eapply Qle_trans; eassumption).
  assert (H35 : late_max_ratio (phases_late (phases self))
                <= early_min_ratio (phases_early (phases self)))
    by (eapply Qle_trans; [exact H3|]; eapply Qle_trans; eassumption).
  destruct t, u; try congruence;
    try (exfalso; unfold tiers in *;
         repeat match goal with
                | H : _ ∈ _ :: _ |- _ => apply elem_of_cons in H as [H | H]
                | H : _ ∈ [] |- _ => now apply elem_of_nil in H
                end; discriminate);
    cbn [ratio_in_range]; rewrite ?andb_true_iff; intros Hin;
    rewrite ?andb_false_iff.
  - right. eapply ge_then_not_lt; [exact H5 | exact Hin].
  - right. eapply ge_then_not_lt; [exact H35 | exact Hin].
  - right. eapply ge_then_not_lt; [exact H15 | exact Hin].
  - eapply lt_then_not_ge; [exact H5 | apply Hin].
  - right. eapply ge_then_not_lt; [exact H3 | apply Hin].
  - right. eapply ge_then_not_lt; [exact H13 | apply Hin].
  - eapply lt_then_not_ge; [exact H35 | apply Hin].
  - left. eapply lt_then_not_ge; [exact H3 | apply Hin].
  - right. eapply ge_then_not_lt; [exact H1 | apply Hin].
  - eapply lt_then_not_ge; [exact H15 | apply Hin].
  - left. eapply lt_then_not_ge; [exact H13 | apply Hin].
  - left. eapply lt_then_not_ge; [exact H1 | apply Hin].
Qed.

End TierOrder.

Lemma classify_phase_phase self (ratio rsi : float) :
  info_phase (classify_phase self ratio rsi) = first_tier self ratio rsi
  /\ info_points (classify_phase self ratio rsi)
     = tier_points self (first_tier self ratio rsi).
Proof.
  unfold classify_phase, first_tier, tiers, Float.ge.
  cbn [List.find ratio_in_range rsi_in_bound].
  destruct (Float.le (Fin (early_min_ratio _)) ratio && Float.le rsi _);
    [split; reflexivity|].
  destruct ((Float.le (Fin (mid_min_ratio _)) ratio && Float.lt ratio _)
            && Float.le rsi _); [split; reflexivity|].
  destruct ((Float.le (Fin (late_min_ratio _)) ratio && Float.lt ratio _)
            && (Float.le _ rsi && Float.le rsi _)); [split; reflexivity|].
  destruct ((Float.le (Fin (breakout_min_ratio _)) ratio && Float.lt ratio _)
            && Float.le _ rsi); split; reflexivity.
Qed.

Lemma tiers_elem (t : Phase) : t ∈ tiers <-> t <> NoPhase.
Proof.
  unfold tiers. rewrite !elem_of_cons, elem_of_nil.
  destruct t; split; intros H; try congruence; try tauto.
  destruct H as [H | [H | [H | [H | []]]]]; discriminate.
Qed.

(** X8: when the ratio ranges of the configuration follow one another
    without overlap, at most one tier can hold, so the order of evaluation
    decides nothing: the phase returned is tier [t] exactly when the two
    conditions of [t] hold. *)
Theorem classify_phase_unique_tier self (ratio rsi : float) (t : Phase) :
  ordered_tiers self -> t ∈ tiers ->
  (info_phase (classify_phase self ratio rsi) = t
   <-> ratio_in_range self t ratio && rsi_in_bound self t rsi = true).
Proof.
  intros Hord Ht.
  destruct (classify_phase_phase self ratio rsi) as [-> _].
  assert (Hdis : forall u v, u ∈ tiers -> v ∈ tiers -> u <> v ->
             ratio_in_range self u ratio && rsi_in_bound self u rsi = true ->
             ratio_in_range self v ratio && rsi_in_bound self v rsi = false).
  { intros u v Hu Hv Hne Hm. apply andb_true_iff in Hm as [Hm _].
    now rewrite (ratio_ranges_disjoint self ratio u v Hord Hu Hv Hne Hm). }
  unfold first_tier, tiers. cbn [List.find].
  split.
  - intros <-.
    destruct (ratio_in_range self Early ratio && rsi_in_bound self Early rsi)
      eqn:He; [exact He|].
    destruct (ratio_in_range self Mid ratio && rsi_in_bound self Mid rsi)
      eqn:Hm; [exact Hm|].
    destruct (ratio_in_range self Late ratio && rsi_in_bound self Late rsi)
      eqn:Hl; [exact Hl|].
    destruct (ratio_in_range self Breakout ratio
              && rsi_in_bound self Breakout rsi) eqn:Hb; [exact Hb|].
    now apply tiers_elem in Ht.
  - intros Hm.
    assert (Hothers : forall v, v ∈ tiers -> v <> t ->
               ratio_in_range self v ratio && rsi_in_bound self v rsi = false).
    { intros v Hv Hne. apply (Hdis t v Ht Hv); [congruence | exact Hm]. }
    destruct t; try (now apply tiers_elem in Ht).
    + now rewrite Hm.
    + rewrite (Hothers Early) by (try apply tiers_elem; discriminate).
      now rewrite Hm.
    + rewrite (Hothers Early), (Hothers Mid)
        by (try apply tiers_elem; discriminate).
      now rewrite Hm.
    + rewrite (Hothers Early), (Hothers Mid), (Hothers Late)
        by (try apply tiers_elem; discriminate).
      now rewrite Hm.
Qed.

Lemma classify_phase_unique_tier_witness :
  info_phase (classify_phase documented_analyzer (Fin 2) (Fin 52)) = Late
  <-> ratio_in_range documented_analyzer Late (Fin 2)
      && rsi_in_bound documented_analyzer Late (Fin 52) = true.
Proof.
  apply classify_phase_unique_tier.
  - unfold ordered_tiers. cbn. repeat split; discriminate.
  - apply tiers_elem. discriminate.
Defined.

(** X9: with such a configuration there is no fall-through: a ratio in
    the range of a tier whose RSI bound fails is classified ['none'] with
    0 points, never as a lower tier. *)
Theorem classify_phase_no_fall_through self (ratio rsi : float) (t : Phase) :
  ordered_tiers self -> t ∈ tiers ->
  ratio_in_range self t ratio = true ->
  rsi_in_bound self t rsi = false ->
  info_phase (classify_phase self ratio rsi) = NoPhase
  /\ info_points (classify_phase self ratio rsi) = 0.
Proof.
  intros Hord Ht Hin Hout.
  destruct (classify_phase_phase self ratio rsi) as [-> ->].
  assert (Hnone : first_tier self ratio rsi = NoPhase).
  { assert (Hall : forall v, v ∈ tiers ->
               ratio_in_range self v ratio && rsi_in_bound self v rsi = false).
    { intros v Hv. destruct (decide (v = t)) as [->|Hne].
      - now rewrite Hout, andb_false_r.
      - rewrite (ratio_ranges_disjoint self ratio t v Hord Ht Hv); [reflexivity| |exact Hin].
        congruence. }
    unfold first_tier, tiers. cbn [List.find].
    now rewrite !Hall by (apply tiers_elem; discriminate). }
  now rewrite Hnone.
Qed.

Lemma classify_phase_no_fall_through_witness :
  info_phase (classify_phase documented_analyzer (Fin 6) (Fin 48)) = NoPhase
  /\ info_points (classify_phase documented_analyzer (Fin 6) (Fin 48)) = 0.
Proof.
  apply (classify_phase_no_fall_through documented_analyzer (Fin 6) (Fin 48)
           Early).
  - unfold ordered_tiers. cbn. repeat split; discriminate.
  - apply tiers_elem. discriminate.
  - reflexivity.
  - reflexivity.
Defined.

(** ** More on [analyze] *)

Lemma int_count (m : Z) : int (Fin (inject_Z m)) = inr m.
Proof. unfold int, Float.trunc. cbn. now rewrite Z.quot_1_r. Qed.

Lemma last_cells self window_arg (fast slow : Series) :
  length fast = length slow -> (0 < length fast)%nat ->
  0 <= window_used self window_arg ->
  let i := (length fast - 1)%nat in
  let ss := signal_counts self window_arg (stoch_oversold self) fast in
  let rs := signal_counts self window_arg (rsi_oversold self) slow in
  exists a b,
    last ss = Some a /\ last rs = Some b
    /\ last (zip_with ratio_cell ss rs) = Some (ratio_cell a b)
    /\ ((Z.of_nat (length fast) < window_used self window_arg `div` 2
         /\ a = NaN /\ b = NaN)
        \/ (window_used self window_arg `div` 2 <= Z.of_nat (length fast)
            /\ a = Fin (inject_Z
                          (oversold_count (stoch_oversold self)
                             (trailing (Z.to_nat (window_used self window_arg))
                                i fast)))
            /\ b = Fin (inject_Z
                          (oversold_count (rsi_oversold self)
                             (trailing (Z.to_nat (window_used self window_arg))
                                i slow))))).
Proof.
  intros Hlen Hpos Hw i ss rs.
  pose proof (half_window_bounds _ Hw) as Hhalf.
  assert (Lss : length ss = length fast)
    by (unfold ss, signal_counts; now rewrite rolling_sum_length, below_length).
  assert (Lrs : length rs = length fast)
    by (unfold rs, signal_counts; rewrite rolling_sum_length, below_length; lia).
  assert (Hi1 : (i < length fast)%nat) by (unfold i; lia).
  assert (Hi2 : (i < length slow)%nat) by (unfold i; lia).
  rewrite !last_lookup, length_zip_with, Lss, Lrs, Nat.min_id.
  replace (Nat.pred (length fast)) with i by (unfold i; lia).
  rewrite lookup_zip_with. unfold ss, rs, signal_counts.
  rewrite !rolling_sum_lookup_lt by assumption. cbn [mbind option_bind].
  eexists _, _. split; [reflexivity|]. split; [reflexivity|].
  split; [reflexivity|].
  destruct (Nat.leb_spec (Z.to_nat (window_used self window_arg `div` 2))
              (Nat.min (Z.to_nat (window_used self window_arg)) (i + 1)))
    as [Hle | Hgt].
  - right. split; [unfold i in Hle; lia|]. split; reflexivity.
  - left. split; [unfold i in Hgt; lia|]. split; reflexivity.
Qed.

Lemma df_empty_false (d : DataFrame) : df_empty d = false -> nrows d <> 0%nat.
Proof.
  unfold df_empty. intros H. apply orb_false_elim in H as [H _].
  now apply bool_decide_eq_false in H.
Qed.

Lemma analyze_try_computed self d symbol (fast slow : Series) :
  wf_DataFrame d -> df_empty d = false ->
  columns d !! "stoch_rsi"%string = Some fast ->
  columns d !! "rsi"%string = Some slow ->
  0 <= window self ->
  exists a b r,
    last (signal_counts self None (stoch_oversold self) fast) = Some a
    /\ last (signal_counts self None (rsi_oversold self) slow) = Some b
    /\ last slow = Some r
    /\ analyze_try self (Some d) symbol
       = (sa ← int a; sb ← int b;
          mret {| phase := info_phase (classify_phase self (ratio_cell a b) r);
                  ratio := ratio_cell a b;
                  points := info_points (classify_phase self (ratio_cell a b) r);
                  description :=
                    info_description (classify_phase self (ratio_cell a b) r);
                  stoch_signals := sa;
                  rsi_signals := sb;
                  rsi := r;
                  history :=
                    tail 10
                      (zip_with ratio_cell
                         (signal_counts self None (stoch_oversold self) fast)
                         (signal_counts self None (rsi_oversold self) slow)) |}).
Proof.
  intros Hwf Hne Hfast Hslow Hw.
  pose proof (df_empty_false d Hne) as Hrows.
  assert (Lf : length fast = nrows d) by (eapply Hwf; eassumption).
  assert (Ls : length slow = nrows d) by (eapply Hwf; eassumption).
  destruct (last_cells self None fast slow) as (a & b & Ha & Hb & Hx & _);
    [lia | lia | exact Hw |].
  assert (Hr : exists r, last slow = Some r).
  { destruct slow as [|c slow] using rev_ind; [cbn in Ls; lia|].
    rewrite last_snoc. eauto. }
  destruct Hr as [r Hr].
  exists a, b, r. repeat (split; [assumption|]).
  unfold analyze_try. rewrite Hne.
  rewrite bool_decide_eq_false_2
    by (intros H; apply H; apply missing_cols_empty; rewrite Hfast, Hslow; eauto).
  rewrite (calculate_ratio_series_ok self d None fast slow Hfast Hslow Hw).
  cbn [mbind mret result_bind result_ret].
  unfold iloc_last. rewrite bool_decide_eq_false_2 by exact Hrows.
  cbn [mbind mret result_bind result_ret].
  unfold row_getitem, getitem. rewrite !lookup_omap.
  unfold with_ratio. cbn [columns]. simpl_map.
  cbn [mbind option_bind]. rewrite Hx, Hr, Ha, Hb.
  cbn [mbind mret result_bind result_ret]. reflexivity.
Qed.

(** The run of [analyze] on a table with at least [window // 2] rows. *)
Lemma analyze_enough_rows self d symbol (fast slow : Series) :
  wf_DataFrame d -> df_empty d = false ->
  columns d !! "stoch_rsi"%string = Some fast ->
  columns d !! "rsi"%string = Some slow ->
  0 <= window self ->
  window self `div` 2 <= Z.of_nat (nrows d) ->
  exists x r,
    last slow = Some r
    /\ last (zip_with ratio_cell
               (signal_counts self None (stoch_oversold self) fast)
               (signal_counts self None (rsi_oversold self) slow))
       = Some (Fin x)
    /\ (x == spec_ratio
              (oversold_count (stoch_oversold self)
                 (trailing (Z.to_nat (window self)) (nrows d - 1) fast))
              (oversold_count (rsi_oversold self)
                 (trailing (Z.to_nat (window self)) (nrows d - 1) slow)))%Q
    /\ (0 <= x <= 20)%Q
    /\ ((x == 0)%Q
        <-> oversold_count (stoch_oversold self)
              (trailing (Z.to_nat (window self)) (nrows d - 1) fast) = 0)
    /\ analyze_try self (Some d) symbol
       = inr {| phase := info_phase (classify_phase self (Fin x) r);
                ratio := Fin x;
                points := info_points (classify_phase self (Fin x) r);
                description :=
                  info_description (classify_phase self (Fin x) r);
                stoch_signals :=
                  oversold_count (stoch_oversold self)
                    (trailing (Z.to_nat (window self)) (nrows d - 1) fast);
                rsi_signals :=
                  oversold_count (rsi_oversold self)
                    (trailing (Z.to_nat (window self)) (nrows d - 1) slow);
                rsi := r;
                history :=
                  tail 10
                    (zip_with ratio_cell
                       (signal_counts self None (stoch_oversold self) fast)
                       (signal_counts self None (rsi_oversold self) slow)) |}.
Proof.
  intros Hwf Hne Hfast Hslow Hw Hrows.
  pose proof (df_empty_false d Hne) as Hpos.
  assert (Lf : length fast = nrows d) by (eapply Hwf; eassumption).
  assert (Ls : length slow = nrows d) by (eapply Hwf; eassumption).
  destruct (analyze_try_computed self d symbol fast slow Hwf Hne Hfast Hslow Hw)
    as (a & b & r & Ha & Hb & Hr & Htry).
  destruct (last_cells self None fast slow) as (a' & b' & Ha' & Hb' & Hx & Hcases);
    [lia | lia | exact Hw |].
  cbv zeta in Ha', Hb', Hx, Hcases.
  rewrite Ha in Ha'. rewrite Hb in Hb'.
  injection Ha' as <-. injection Hb' as <-.
  change (window_used self None) with (window self) in Hcases.
  rewrite Lf in Hcases.
  destruct Hcases as [(Hlt & _) | (_ & -> & ->)]; [lia|].
  match type of Hx with
  | context [ratio_cell (Fin (inject_Z ?m)) (Fin (inject_Z ?n))] =>
      destruct (ratio_cell_counts m n) as (x & Ex & Hspec & Hb20 & Hz);
      [apply oversold_count_nonneg | apply oversold_count_nonneg |]
  end.
  rewrite Ex in Hx, Htry. rewrite !int_count in Htry.
  exists x, r. repeat (split; [assumption|]). exact Htry.
Qed.

Lemma phase_description_not_default (p : Phase) :
  phase_description p <> "Insufficient Data"%string.
Proof. destruct p; discriminate. Qed.

Lemma classify_phase_description self (ratio rsi : float) :
  info_description (classify_phase self ratio rsi)
  = phase_description (info_phase (classify_phase self ratio rsi)).
Proof.
  unfold classify_phase.
  repeat match goal with
         | |- context [if ?c then _ else _] => destruct c; try reflexivity
         end.
Qed.

(** X10: on a well-formed, non-empty table that has both oscillator
    columns, [analyze] returns the default result exactly when the
    configured window is negative or the table has fewer than
    [window // 2] rows. *)
Theorem analyze_default_iff self d symbol :
  wf_DataFrame d -> df_empty d = false ->
  is_Some (columns d !! "stoch_rsi"%string) ->
  is_Some (columns d !! "rsi"%string) ->
  (analyze self (Some d) symbol = _empty_result
   <-> window self < 0 \/ Z.of_nat (nrows d) < window self `div` 2).
Proof.
  intros Hwf Hne [fast Hfast] [slow Hslow].
  pose proof (df_empty_false d Hne) as Hpos.
  assert (Lf : length fast = nrows d) by (eapply Hwf; eassumption).
  assert (Ls : length slow = nrows d) by (eapply Hwf; eassumption).
  destruct (Z_lt_le_dec (window self) 0) as [Hneg | Hw].
  { split; [intros _; now left|]. intros _.
    unfold analyze, analyze_try. rewrite Hne.
    rewrite bool_decide_eq_false_2
      by (intros H; apply H; apply missing_cols_empty;
          rewrite Hfast, Hslow; eauto).
    now rewrite (calculate_ratio_series_negative_window self d None fast slow). }
  destruct (Z_lt_le_dec (Z.of_nat (nrows d)) (window self `div` 2))
    as [Hshort | Hrows].
  - split; [intros _; now right|]. intros _.
    destruct (analyze_try_computed self d symbol fast slow Hwf Hne Hfast Hslow Hw)
      as (a & b & r & Ha & Hb & Hr & Htry).
    destruct (last_cells self None fast slow)
      as (a' & b' & Ha' & Hb' & _ & Hcases); [lia | lia | exact Hw |].
    cbv zeta in Ha', Hb', Hcases. rewrite Ha in Ha'. injection Ha' as <-.
    change (window_used self None) with (window self) in Hcases.
    rewrite Lf in Hcases.
    destruct Hcases as [(_ & -> & _) | (Hge & _)]; [|lia].
    unfold analyze. now rewrite Htry.
  - split; [|lia]. intros Hdef. exfalso.
    destruct (analyze_enough_rows self d symbol fast slow
                Hwf Hne Hfast Hslow Hw Hrows)
      as (x & r & _ & _ & _ & _ & _ & Htry).
    unfold analyze in Hdef. rewrite Htry in Hdef. cbn in Hdef.
    apply (f_equal description) in Hdef. cbn in Hdef.
    rewrite classify_phase_description in Hdef.
    now apply phase_description_not_default in Hdef.
Qed.

Lemma analyze_default_iff_witness :
  analyze documented_analyzer (Some four_bars) None = _empty_result
  <-> window documented_analyzer < 0
      \/ Z.of_nat (nrows four_bars) < window documented_analyzer `div` 2.
Proof.
  apply analyze_default_iff.
  - intros c s Hc. unfold four_bars, frame_of in Hc. cbn [columns nrows] in *.
    apply lookup_insert_Some in Hc as [[_ <-] | [_ Hc]]; [reflexivity|].
    apply lookup_insert_Some in Hc as [[_ <-] | [_ Hc]]; [reflexivity|].
    now rewrite lookup_empty in Hc.
  - reflexivity.
  - vm_compute. eauto.
  - vm_compute. eauto.
Defined.




Lemma four_bars_wf : wf_DataFrame four_bars.
Proof.
  intros c s Hc. unfold four_bars, frame_of in Hc. cbn [columns nrows] in *.
  apply lookup_insert_Some in Hc as [[_ <-] | [_ Hc]]; [reflexivity|].
  apply lookup_insert_Some in Hc as [[_ <-] | [_ Hc]]; [reflexivity|].
  now rewrite lookup_empty in Hc.
Defined.


(** The value of [analyze] is that of the frame made of the two
    oscillator columns alone. *)
Lemma analyze_value self d symbol (fast slow : Series) :
  wf_DataFrame d -> df_empty d = false ->
  columns d !! "stoch_rsi"%string = Some fast ->
  columns d !! "rsi"%string = Some slow ->
  analyze self (Some d) symbol = analyze self (Some (frame_of fast slow)) None.
Proof.
  intros Hwf Hne Hfast Hslow.
  pose proof (df_empty_false d Hne) as Hpos.
  assert (Lf : length fast = nrows d) by (eapply Hwf; eassumption).
  assert (Ls : length slow = nrows d) by (eapply Hwf; eassumption).
  assert (Hfast' : columns (frame_of fast slow) !! "stoch_rsi"%string = Some fast)
    by (unfold frame_of; cbn [columns]; now simpl_map).
  assert (Hslow' : columns (frame_of fast slow) !! "rsi"%string = Some slow)
    by (unfold frame_of; cbn [columns]; now simpl_map).
  assert (Hwf' : wf_DataFrame (frame_of fast slow)).
  { intros c s Hc. unfold frame_of in *. cbn [columns nrows] in *.
    apply lookup_insert_Some in Hc as [[_ <-] | [_ Hc]]; [reflexivity|].
    apply lookup_insert_Some in Hc as [[_ <-] | [_ Hc]]; [lia|].
    now rewrite lookup_empty in Hc. }
  assert (Hne' : df_empty (frame_of fast slow) = false).
  { unfold df_empty, frame_of. cbn [nrows columns].
    rewrite bool_decide_eq_false_2 by lia.
    rewrite bool_decide_eq_false_2 by apply insert_non_empty. reflexivity. }
  destruct (Z_lt_le_dec (window self) 0) as [Hneg | Hw].
  - unfold analyze, analyze_try. rewrite Hne, Hne'.
    rewrite !bool_decide_eq_false_2
      by (intros H; apply H; apply missing_cols_empty;
          rewrite ?Hfast, ?Hslow, ?Hfast', ?Hslow'; eauto).
    rewrite (calculate_ratio_series_negative_window self d None fast slow)
      by assumption.
    now rewrite (calculate_ratio_series_negative_window self
                   (frame_of fast slow) None fast slow) by assumption.
  - destruct (analyze_try_computed self d symbol fast slow
                Hwf Hne Hfast Hslow Hw)
      as (a & b & r & Ha & Hb & Hr & Htry).
    destruct (analyze_try_computed self (frame_of fast slow) None fast slow
                Hwf' Hne' Hfast' Hslow' Hw)
      as (a' & b' & r' & Ha' & Hb' & Hr' & Htry').
    rewrite Ha in Ha'. rewrite Hb in Hb'. rewrite Hr in Hr'.
    injection Ha' as <-. injection Hb' as <-. injection Hr' as <-.
    unfold analyze. now rewrite Htry, Htry'.
Qed.

(** X12: [analyze] reads the two oscillator columns and nothing else: two
    well-formed tables with the same ['stoch_rsi'] and ['rsi'] columns get
    the same result, whatever their other columns and whatever symbol is
    passed for logging. *)
Theorem analyze_reads_two_columns self d1 d2 symbol1 symbol2 (fast slow : Series) :
  wf_DataFrame d1 -> wf_DataFrame d2 ->
  columns d1 !! "stoch_rsi"%string = Some fast ->
  columns d1 !! "rsi"%string = Some slow ->
  columns d2 !! "stoch_rsi"%string = Some fast ->
  columns d2 !! "rsi"%string = Some slow ->
  analyze self (Some d1) symbol1 = analyze self (Some d2) symbol2.
Proof.
  intros Hwf1 Hwf2 Hf1 Hs1 Hf2 Hs2.
  assert (L1 : length fast = nrows d1) by (eapply Hwf1; eassumption).
  assert (L2 : length fast = nrows d2) by (eapply Hwf2; eassumption).
  destruct (df_empty d1) eqn:E1.
  - assert (Hz : nrows d1 = 0%nat).
    { unfold df_empty in E1. apply orb_true_iff in E1 as [E1 | E1].
      - now apply bool_decide_eq_true in E1.
      - apply bool_decide_eq_true in E1. rewrite E1 in Hf1.
        now rewrite lookup_empty in Hf1. }
    assert (E2 : df_empty d2 = true).
    { unfold df_empty. rewrite bool_decide_eq_true_2 by lia. reflexivity. }
    unfold analyze, analyze_try. now rewrite E1, E2.
  - pose proof (df_empty_false d1 E1) as Hpos.
    assert (E2 : df_empty d2 = false).
    { unfold df_empty. rewrite bool_decide_eq_false_2 by lia.
      rewrite bool_decide_eq_false_2; [reflexivity|].
      intros E. rewrite E in Hf2. now rewrite lookup_empty in Hf2. }
    rewrite (analyze_value self d1 symbol1 fast slow) by assumption.
    now rewrite (analyze_value self d2 symbol2 fast slow) by assumption.
Qed.

Lemma four_bars_with_close_wf : wf_DataFrame four_bars_with_close.
Proof.
  intros c s Hc. unfold four_bars_with_close, setitem, four_bars, frame_of in Hc.
  cbn [columns nrows] in *.
  apply lookup_insert_Some in Hc as [[_ <-] | [_ Hc]]; [reflexivity|].
  apply lookup_insert_Some in Hc as [[_ <-] | [_ Hc]]; [reflexivity|].
  apply lookup_insert_Some in Hc as [[_ <-] | [_ Hc]]; [reflexivity|].
  now rewrite lookup_empty in Hc.
Defined.

Lemma analyze_reads_two_columns_witness :
  analyze short_window_analyzer (Some four_bars) None
  = analyze short_window_analyzer (Some four_bars_with_close)
      (Some "AAPL"%string).
Proof.
  apply (analyze_reads_two_columns short_window_analyzer four_bars
           four_bars_with_close None (Some "AAPL"%string)
           [Fin 10; Fin 15; NaN; Fin 50] [Fin 20; Fin 40; Fin 40; Fin 45]).
  - exact four_bars_wf.
  - exact four_bars_with_close_wf.
  - reflexivity.
  - reflexivity.
  - reflexivity.
  - reflexivity.
Defined.




(** * Properties of the trade validator *)

Module ValidatorFacts.

Import Validator.

Lemma res_bind_inr {A B} (m : res A) (k : A -> res B) (b : B) :
  m ≫= k = inr b -> exists a, m = inr a /\ k a = inr b.
Proof. destruct m as [e|a]; [discriminate|]. intros H. now exists a. Qed.

(** What a call of [validate] that returns has computed. *)
Lemma validate_inr self p rep :
  validate self p = inr rep ->
  exists tr rp pv q1 q2,
    total_risk (effective self p) = inr tr
    /\ risk_percent (effective self p) = inr rp
    /\ position_value (effective self p) = inr pv
    /\ truediv (risk_per_share (effective self p))
         (entry_price (effective self p)) = inr q1
    /\ truediv (add (positions_risk (_current_positions self)) tr)
         (validator_account_size self) = inr q2
    /\ proposal rep = effective self p
    /\ report_symbol rep = symbol (effective self p)
    /\ rejections rep
       = rejections_of self (effective self p) rp (mul q1 (Fin 100))
           (mul q2 (Fin 100)) pv
    /\ warnings rep = warnings_of self (effective self p)
    /\ (result rep, approved rep)
       = if negb (is_nil (rejections rep)) then (REJECTED, false)
         else if negb (is_nil (warnings rep)) then (WARNING, true)
         else (APPROVED, true).
Proof.
  unfold validate. fold (effective self p). cbv zeta.
  intros H.
  apply res_bind_inr in H as (tr & Htr & H).
  apply res_bind_inr in H as (rp & Hrp & H).
  apply res_bind_inr in H as (pv & Hpv & H).
  apply res_bind_inr in H as (q1 & Hq1 & H).
  apply res_bind_inr in H as (q2 & Hq2 & H).
  exists tr, rp, pv, q1, q2. repeat (split; [assumption|]).
  match type of H with
  | (let '(_, _) := ?c in _) = _ => destruct c as [res0 app0] eqn:Hc
  end.
  injection H as <-. cbn [proposal report_symbol rejections warnings result approved].
  split; [reflexivity|]. split; [reflexivity|].
  split; [reflexivity|]. split; [reflexivity|].
  symmetry. exact Hc.
Qed.

(** ** The verdict *)

Lemma is_nil_append_if_true {A} (x : A) (l : list A) :
  is_nil (append_if true x l) = false.
Proof. unfold append_if. now destruct l. Qed.

Lemma is_nil_append_if {A} (c : bool) (x : A) (l : list A) :
  is_nil l = false -> is_nil (append_if c x l) = false.
Proof. destruct l; [discriminate|]. intros _. now destruct c. Qed.

Lemma is_nil_false {A} (l : list A) : is_nil l = false <-> l <> [].
Proof. destruct l; cbn; split; congruence. Qed.

Lemma is_nil_true {A} (l : list A) : is_nil l = true <-> l = [].
Proof. destruct l; cbn; split; congruence. Qed.

(** Each warning is appended together with a rejection. *)
Lemma warnings_need_rejection self p rp sd tp pv :
  is_nil (warnings_of self p) = false ->
  is_nil (rejections_of self p rp sd tp pv) = false.
Proof.
  unfold warnings_of, rejections_of.
  destruct (too_many self p); [intros _; apply is_nil_append_if_true|].
  destruct (sell_stop_wrong p).
  { intros _.
    repeat first [apply is_nil_append_if_true | apply is_nil_append_if]. }
  destruct (buy_stop_wrong p).
  { intros _.
    repeat first [apply is_nil_append_if_true | apply is_nil_append_if]. }
  cbn. discriminate.
Qed.

(** X14: [validate] never returns the result [WARNING]: every warning it
    records comes with a rejection, so a report is [APPROVED] with
    [approved] true exactly when it holds no rejection, and [REJECTED]
    with [approved] false otherwise. *)
Theorem validate_never_warns self p rep :
  validate self p = inr rep ->
  result rep <> WARNING
  /\ (warnings rep <> [] -> rejections rep <> [])
  /\ (rejections rep = [] <-> result rep = APPROVED)
  /\ (rejections rep <> [] <-> result rep = REJECTED)
  /\ (approved rep = true <-> rejections rep = []).
Proof.
  intros H.
  destruct (validate_inr self p rep H)
    as (tr & rp & pv & q1 & q2 & _ & _ & _ & _ & _ & _ & _
        & Hrej & Hwarn & Hres).
  assert (Hw : is_nil (warnings rep) = false -> is_nil (rejections rep) = false).
  { rewrite Hrej, Hwarn. apply warnings_need_rejection. }
  destruct (is_nil (rejections rep)) eqn:Er; cbn [negb] in Hres.
  - destruct (is_nil (warnings rep)) eqn:Ew; [|now specialize (Hw eq_refl)].
    cbn [negb] in Hres. injection Hres as -> ->.
    apply is_nil_true in Er, Ew. rewrite Er, Ew.
    repeat split; try congruence; try discriminate.
  - injection Hres as -> ->. apply is_nil_false in Er.
    repeat split; try congruence; try discriminate; try tauto.
Qed.

Lemma validate_never_warns_witness :
  exists rep,
    validate (new_validator (Fin 100000)) aapl_buy = inr rep
    /\ result rep <> WARNING
    /\ (rejections rep = [] <-> result rep = APPROVED).
Proof.
  eexists. split; [vm_compute; reflexivity|].
  match goal with |- result ?r <> _ /\ _ =>
    destruct (validate_never_warns (new_validator (Fin 100000)) aapl_buy r)
      as (H1 & _ & H2 & _)
  end.
  - vm_compute. reflexivity.
  - split; assumption.
Defined.

(** ** When [validate] raises *)

Lemma eqb_zero_le (x : float) :
  Float.eqb x (Fin 0) = true -> Float.le x (Fin 0) = true.
Proof.
  destruct x as [| |q]; cbn; try discriminate.
  intros H. apply Qeq_bool_iff in H. apply Qle_bool_iff. rewrite H.
  apply Qle_refl.
Qed.

Lemma lt_zero_not_zero (x : float) :
  Float.lt (Fin 0) x = true -> Float.eqb x (Fin 0) = false.
Proof.
  destruct x as [|[|]|q]; cbn; try discriminate; try reflexivity.
  intros H. apply negb_true_iff in H.
  destruct (Qeq_bool q 0) eqn:E; [|reflexivity].
  apply Qeq_bool_iff in E. exfalso.
  assert (L : Qle_bool q 0 = true) by (apply Qle_bool_iff; rewrite E; apply Qle_refl).
  congruence.
Qed.

Lemma of_int_inr (z : Z) :
  Z.abs z < float_int_limit -> of_int z = inr (Fin (inject_Z z)).
Proof.
  intros H. unfold of_int.
  now rewrite (proj2 (Z.ltb_lt (Z.abs z) float_int_limit) H).
Qed.

Lemma of_int_inl (z : Z) :
  float_int_limit <= Z.abs z -> of_int z = inl OverflowError.
Proof.
  intros H. unfold of_int.
  now rewrite (proj2 (Z.ltb_ge (Z.abs z) float_int_limit) H).
Qed.

(** With a quantity that converts to a float, the guarded division of
    [risk_percent] does not raise. *)
Lemma risk_percent_returns (p : TradeProposal) :
  Z.abs (quantity p) < float_int_limit -> exists rp, risk_percent p = inr rp.
Proof.
  intros Hq. unfold risk_percent, total_risk.
  destruct (Float.lt (Fin 0) (account_size p)) eqn:E; [|eauto].
  rewrite (of_int_inr _ Hq). cbn [mbind mret res_bind res_ret].
  unfold truediv. rewrite (lt_zero_not_zero _ E).
  cbn [mbind mret res_bind res_ret]. eauto.
Qed.

Lemma effective_fields self p :
  symbol (effective self p) = symbol p
  /\ side (effective self p) = side p
  /\ quantity (effective self p) = quantity p
  /\ entry_price (effective self p) = entry_price p
  /\ stop_loss (effective self p) = stop_loss p.
Proof.
  unfold effective. destruct (Float.eqb (account_size p) (Fin 0));
    repeat split.
Qed.

Lemma post_init_inr (p : TradeProposal) :
  post_init p = inr tt ->
  (side p = "BUY"%string \/ side p = "SELL"%string)
  /\ 0 < quantity p
  /\ Float.le (entry_price p) (Fin 0) = false
  /\ Float.le (stop_loss p) (Fin 0) = false.
Proof.
  unfold post_init.
  destruct (String.eqb (side p) "BUY" || String.eqb (side p) "SELL") eqn:Es;
    cbn [negb]; [|discriminate].
  destruct (Z.leb_spec (quantity p) 0); [discriminate|].
  destruct (Float.le (entry_price p) (Fin 0)); [discriminate|].
  destruct (Float.le (stop_loss p) (Fin 0)); [discriminate|].
  intros _. split; [|repeat split; assumption].
  apply orb_true_iff in Es as [E|E]; apply String.eqb_eq in E; auto.
Qed.

(** X15: what [validate] raises on a proposal that passed
    [__post_init__].  A quantity too large to convert to a float
    ([float_int_limit] or more) makes it raise [OverflowError], from
    [total_risk].  With a smaller quantity it raises exactly when the
    validator's account size equals 0, and then [ZeroDivisionError] (from
    the portfolio-risk percentage); otherwise it returns a report. *)
Theorem validate_raises_iff self p :
  post_init p = inr tt ->
  (float_int_limit <= quantity p -> validate self p = inl OverflowError)
  /\ (quantity p < float_int_limit ->
      (is_zero (validator_account_size self)
       -> validate self p = inl ZeroDivisionError)
      /\ (Float.eqb (validator_account_size self) (Fin 0) = false
          -> exists rep, validate self p = inr rep)).
Proof.
  intros Hp.
  destruct (post_init_inr p Hp) as (_ & Hqpos & He & _).
  destruct (effective_fields self p) as (_ & _ & Hqty & Hentry & _).
  split.
  - intros Hbig.
    assert (Htr : total_risk (effective self p) = inl OverflowError).
    { unfold total_risk. rewrite Hqty.
      now rewrite of_int_inl by (rewrite Z.abs_eq; lia). }
    unfold validate. fold (effective self p). cbv zeta. now rewrite Htr.
  - intros Hsmall.
    assert (Habs : Z.abs (quantity (effective self p)) < float_int_limit)
      by (rewrite Hqty, Z.abs_eq; lia).
    destruct (risk_percent_returns (effective self p) Habs) as [rp Hrp].
    assert (Hq1 : exists q1,
               truediv (risk_per_share (effective self p))
                 (entry_price (effective self p)) = inr q1).
    { unfold truediv. rewrite Hentry.
      destruct (Float.eqb (entry_price p) (Fin 0)) eqn:E; [|cbn; eauto].
      apply eqb_zero_le in E. congruence. }
    destruct Hq1 as [q1 Hq1].
    assert (Htr : exists tr, total_risk (effective self p) = inr tr)
      by (unfold total_risk; rewrite (of_int_inr _ Habs); cbn; eauto).
    assert (Hpv : exists pv, position_value (effective self p) = inr pv)
      by (unfold position_value; rewrite (of_int_inr _ Habs); cbn; eauto).
    destruct Htr as [tr Htr]. destruct Hpv as [pv Hpv].
    unfold validate. fold (effective self p). cbv zeta.
    rewrite Htr. cbn [mbind mret res_bind res_ret].
    rewrite Hrp. cbn [mbind mret res_bind res_ret].
    rewrite Hpv. cbn [mbind mret res_bind res_ret].
    rewrite Hq1. cbn [mbind mret res_bind res_ret].
    split; intros Hz; unfold truediv; rewrite Hz.
    + reflexivity.
    + cbn [mbind mret res_bind res_ret].
      match goal with
      | |- exists rep, (let '(_, _) := ?c in _) = _ => destruct c
      end.
      eauto.
Qed.

Lemma validate_raises_iff_witness :
  validate (new_validator (Fin 100000)) huge_buy = inl OverflowError
  /\ validate (new_validator (Fin 0)) aapl_buy = inl ZeroDivisionError
  /\ exists rep, validate (new_validator (Fin 100000)) aapl_buy = inr rep.
Proof.
  split; [|split].
  - apply (validate_raises_iff (new_validator (Fin 100000)) huge_buy);
      vm_compute; [reflexivity | discriminate].
  - apply (validate_raises_iff (new_validator (Fin 0)) aapl_buy);
      reflexivity.
  - apply (validate_raises_iff (new_validator (Fin 100000)) aapl_buy);
      reflexivity.
Defined.

(** ** Which reasons a report can hold *)

Lemma elem_of_append_if {A} (c : bool) (x y : A) (l : list A) :
  y ∈ append_if c x l <-> y ∈ l \/ (c = true /\ y = x).
Proof.
  unfold append_if. destruct c.
  - rewrite elem_of_app, list_elem_of_singleton. intuition.
  - intuition discriminate.
Qed.

(** Membership in the list of rejections, reason by reason. *)
Lemma elem_of_rejections_of self p rp sd tp pv (r : RejectionReason) :
  r ∈ rejections_of self p rp sd tp pv
  <-> (String.eqb (symbol p) "" = true /\ r = SYMBOL_INVALID)
      \/ (not_allowed self p = true /\ r = SYMBOL_NOT_ALLOWED)
      \/ ((quantity p <? min_position_size self) = true
          /\ r = POSITION_SIZE_TOO_SMALL)
      \/ (too_large self p = true /\ r = POSITION_SIZE_TOO_LARGE)
      \/ (Float.lt sd (min_stop_distance_percent self) = true
          /\ r = STOP_LOSS_TOO_TIGHT)
      \/ (Float.lt (max_stop_distance_percent self) sd = true
          /\ r = STOP_LOSS_TOO_WIDE)
      \/ (buy_stop_wrong p = true /\ r = STOP_LOSS_INVALID)
      \/ (sell_stop_wrong p = true /\ r = STOP_LOSS_INVALID)
      \/ (Float.lt (max_risk_per_trade_percent self) rp = true
          /\ r = RISK_PER_TRADE_EXCEEDED)
      \/ (Float.lt (max_total_risk_percent self) tp = true
          /\ r = TOTAL_PORTFOLIO_RISK_EXCEEDED)
      \/ (Float.lt (sub (validator_account_size self)
                      (positions_risk (_current_positions self)))
            pv = true
          /\ r = INSUFFICIENT_ACCOUNT_BALANCE)
      \/ (too_many self p = true /\ r = MAX_POSITION_COUNT_EXCEEDED).
Proof.
  unfold rejections_of. rewrite !elem_of_append_if, elem_of_nil. tauto.
Qed.

(** X16: four members of [RejectionReason] are never produced:
    [validate] does not check the price range, the order type, the
    quantity's validity or the side, so no report holds
    [PRICE_OUT_OF_RANGE], [ORDER_TYPE_INVALID], [QUANTITY_INVALID] or
    [SIDE_INVALID]. *)
Theorem validate_unused_reasons self p rep (r : RejectionReason) :
  validate self p = inr rep ->
  r ∈ rejections rep ->
  r <> PRICE_OUT_OF_RANGE /\ r <> ORDER_TYPE_INVALID
  /\ r <> QUANTITY_INVALID /\ r <> SIDE_INVALID.
Proof.
  intros H Hr.
  destruct (validate_inr self p rep H)
    as (tr & rp & pv & q1 & q2 & _ & _ & _ & _ & _ & _ & _ & Hrej & _).
  rewrite Hrej in Hr. apply elem_of_rejections_of in Hr.
  repeat destruct Hr as [[_ ->] | Hr]; try destruct Hr as [_ ->];
    repeat split; discriminate.
Qed.

Lemma validate_unused_reasons_witness :
  STOP_LOSS_INVALID <> PRICE_OUT_OF_RANGE
  /\ STOP_LOSS_INVALID <> ORDER_TYPE_INVALID
  /\ STOP_LOSS_INVALID <> QUANTITY_INVALID
  /\ STOP_LOSS_INVALID <> SIDE_INVALID.
Proof.
  eapply (validate_unused_reasons (new_validator (Fin 100000))
            (mkProposal "AAPL" "BUY" 100 (Fin 150) (Fin 151) None
               "LIMIT" "DAY" (Fin 0))).
  - vm_compute. reflexivity.
  - vm_compute. apply list_elem_of_here.
Defined.

(** X17: the verdict does not depend on [take_profit], [order_type] or
    [time_in_force]: two proposals that differ in these fields only make
    [validate] raise the same error or return reports with the same
    result, rejections, warnings and risk metrics. *)
Theorem validate_ignores_order_fields self sym sd qty entry stop acct
    tp1 ot1 tif1 tp2 ot2 tif2 :
  match validate self (mkProposal sym sd qty entry stop tp1 ot1 tif1 acct),
        validate self (mkProposal sym sd qty entry stop tp2 ot2 tif2 acct)
  with
  | inr rep1, inr rep2 =>
      result rep1 = result rep2 /\ approved rep1 = approved rep2
      /\ rejections rep1 = rejections rep2 /\ warnings rep1 = warnings rep2
      /\ risk_metrics rep1 = risk_metrics rep2
  | inl e1, inl e2 => e1 = e2
  | _, _ => False
  end.
Proof.
  unfold validate, risk_percent, total_risk, risk_per_share, position_value,
    set_account_size.
  cbn [symbol side quantity entry_price stop_loss account_size].
  destruct (Float.eqb acct (Fin 0));
    cbn [symbol side quantity entry_price stop_loss account_size];
    repeat match goal with
      | |- context [@mbind res _ _ _ _ ?m] =>
          lazymatch m with
          | inl _ => fail
          | inr _ => fail
          | _ => destruct m
          end
      | _ => progress cbn [mbind mret res_bind res_ret]
      end;
    try reflexivity;
    repeat match goal with
      | |- context [let '(_, _) := ?c in _] => destruct c
      end;
    repeat split.
Qed.

(** ** Stops on the wrong side *)

(** X18: a BUY whose stop is at or above its entry, and a SELL whose stop
    is at or below its entry, is never approved: the report holds
    [STOP_LOSS_INVALID]; conversely that reason is given for nothing
    else. *)
Theorem validate_stop_direction self p rep :
  validate self p = inr rep ->
  (STOP_LOSS_INVALID ∈ rejections rep
   <-> (side p = "BUY"%string
        /\ Float.ge (stop_loss p) (entry_price p) = true)
       \/ (side p = "SELL"%string
           /\ Float.le (stop_loss p) (entry_price p) = true))
  /\ (STOP_LOSS_INVALID ∈ rejections rep -> approved rep = false).
Proof.
  intros H.
  destruct (validate_inr self p rep H)
    as (tr & rp & pv & q1 & q2 & _ & _ & _ & _ & _ & _ & _
        & Hrej & _ & Hres).
  destruct (effective_fields self p) as (_ & Hside & _ & Hentry & Hstop).
  split.
  - rewrite Hrej, elem_of_rejections_of.
    unfold buy_stop_wrong, sell_stop_wrong.
    rewrite Hside, Hentry, Hstop, !andb_true_iff, !String.eqb_eq.
    split.
    + intros Hr.
      repeat destruct Hr as [[Hc Hr'] | Hr]; try discriminate Hr'; auto.
      destruct Hr as [_ Hr']. discriminate Hr'.
    + intros [Hb | Hs]; [do 6 right; left | do 7 right; left]; auto.
  - intros Hin.
    destruct (rejections rep) as [|r l]; [now apply elem_of_nil in Hin|].
    cbn in Hres. now injection Hres as _ ->.
Qed.

Lemma validate_stop_direction_witness :
  exists rep,
    validate (new_validator (Fin 100000))
      (mkProposal "AAPL" "BUY" 100 (Fin 150) (Fin 150) None "LIMIT" "DAY"
         (Fin 0)) = inr rep
    /\ STOP_LOSS_INVALID ∈ rejections rep
    /\ approved rep = false.
Proof.
  eexists. split; [vm_compute; reflexivity|].
  match goal with |- _ ∈ rejections ?r /\ _ =>
    destruct (validate_stop_direction (new_validator (Fin 100000))
                (mkProposal "AAPL" "BUY" 100 (Fin 150) (Fin 150) None
                   "LIMIT" "DAY" (Fin 0)) r) as [Hiff Happ]
  end.
  - vm_compute. reflexivity.
  - split; [|apply Happ]; apply Hiff; left; split; reflexivity.
Defined.

(** ** The position count *)

(** X19: [validate] gives [MAX_POSITION_COUNT_EXCEEDED] exactly when the
    validator already tracks [max_positions] symbols or more and the
    proposal's symbol is not one of them: a further trade in a tracked
    symbol is not rejected for the count, a new symbol is never
    approved. *)
Theorem validate_position_count self p rep :
  validate self p = inr rep ->
  (MAX_POSITION_COUNT_EXCEEDED ∈ rejections rep
   <-> max_positions self <= Z.of_nat (size (_current_positions self))
       /\ _current_positions self !! symbol p = None)
  /\ (MAX_POSITION_COUNT_EXCEEDED ∈ rejections rep -> approved rep = false).
Proof.
  intros H.
  destruct (validate_inr self p rep H)
    as (tr & rp & pv & q1 & q2 & _ & _ & _ & _ & _ & _ & _
        & Hrej & _ & Hres).
  destruct (effective_fields self p) as (Hsym & _).
  split.
  - rewrite Hrej, elem_of_rejections_of. unfold too_many. rewrite Hsym.
    rewrite andb_true_iff, Z.leb_le, negb_true_iff, bool_decide_eq_false.
    rewrite <- eq_None_not_Some.
    split.
    + intros Hr.
      repeat destruct Hr as [[Hc Hr'] | Hr]; try discriminate Hr'.
      now destruct Hr as [Hc _].
    + intros Hc. do 11 right. now split.
  - intros Hin.
    destruct (rejections rep) as [|r l]; [now apply elem_of_nil in Hin|].
    cbn in Hres. now injection Hres as _ ->.
Qed.

Lemma validate_position_count_witness :
  exists rep,
    validate
      (add_position
         (mkValidator (Fin 100000) (Fin 1) (Fin 3) 1 1 None (Fin (1 # 2))
            (Fin 10) None ∅) "MSFT" (Fin 100))
      aapl_buy = inr rep
    /\ MAX_POSITION_COUNT_EXCEEDED ∈ rejections rep
    /\ approved rep = false.
Proof.
  eexists. split; [vm_compute; reflexivity|].
  match goal with |- _ ∈ rejections ?r /\ _ =>
    destruct (validate_position_count
                (add_position
                   (mkValidator (Fin 100000) (Fin 1) (Fin 3) 1 1 None
                      (Fin (1 # 2)) (Fin 10) None ∅) "MSFT" (Fin 100))
                aapl_buy r) as [Hiff Happ]
  end.
  - vm_compute. reflexivity.
  - split; [|apply Happ]; apply Hiff; split; vm_compute; congruence.
Defined.

(** ** Limits that are switched off *)

(** X20: a limit that is falsy is no limit: a validator whose
    [max_position_size] is 0 and whose [allowed_symbols] is the empty list
    behaves, in [validate] and in [calculate_position_size], as one where
    both are [None]. *)
Theorem falsy_limits_are_off
    acct mr mt mp mn mns mxs pos p sym entry stop risk_amount :
  validate (mkValidator acct mr mt mp mn (Some 0) mns mxs (Some []) pos) p
  = validate (mkValidator acct mr mt mp mn None mns mxs None pos) p
  /\ calculate_position_size
       (mkValidator acct mr mt mp mn (Some 0) mns mxs (Some []) pos)
       sym entry stop risk_amount
     = calculate_position_size
         (mkValidator acct mr mt mp mn None mns mxs None pos)
         sym entry stop risk_amount.
Proof. split; reflexivity. Qed.

(** ** [calculate_position_size] *)

(** The risk amount in use never raises: a division by 100. *)
Lemma risk_amount_returns self (risk_amount : option float) :
  exists ra,
    match risk_amount with
    | Some r => mret r
    | None =>
        pct ← truediv (max_risk_per_trade_percent self) (Fin 100);
        mret (mul (validator_account_size self) pct)
    end = inr ra.
Proof. destruct risk_amount; cbn; eauto. Qed.

(** [abs(entry - stop) == 0] holds of equal finite prices only. *)
Lemma risk_zero_iff (entry stop : float) :
  Float.eqb (abs (sub entry stop)) (Fin 0) = true
  <-> exists e s, entry = Fin e /\ stop = Fin s /\ (e == s)%Q.
Proof.
  split.
  - destruct entry as [|a|e], stop as [|b|s]; cbn;
      try discriminate; try (destruct (Bool.eqb a (negb b)); discriminate).
    intros H. exists e, s. split; [reflexivity|]. split; [reflexivity|].
    destruct (Qle_bool 0 (e + - s)); cbn in H; apply Qeq_bool_iff in H.
    + apply Qplus_inj_r with (z := (- s)%Q). rewrite H. symmetry.
      apply Qplus_opp_r.
    + apply Qplus_inj_r with (z := (- s)%Q). rewrite Qplus_opp_r.
      rewrite <- (Qopp_involutive (e + - s)). rewrite H. reflexivity.
  - intros (e & s & -> & -> & E). cbn.
    assert (Z0 : (e + - s == 0)%Q) by (rewrite E; apply Qplus_opp_r).
    destruct (Qle_bool 0 (e + - s)); cbn; apply Qeq_bool_iff;
      rewrite Z0; reflexivity.
Qed.

Lemma eqb_finite_equal (entry stop : float) :
  Float.eqb entry stop = true ->
  (exists e s, entry = Fin e /\ stop = Fin s /\ (e == s)%Q)
  \/ (exists sgn, entry = Inf sgn /\ stop = Inf sgn).
Proof.
  destruct entry as [|a|e], stop as [|b|s]; cbn; try discriminate.
  - intros H. right. exists a. apply Bool.eqb_prop in H. now subst.
  - intros H. left. exists e, s. apply Qeq_bool_iff in H. auto.
Qed.

Lemma eqb_false_not_equal (entry stop : float) :
  Float.eqb entry stop = false ->
  ~ exists e s, entry = Fin e /\ stop = Fin s /\ (e == s)%Q.
Proof.
  intros H (e & s & -> & -> & E). cbn in H.
  apply Qeq_bool_iff in E. congruence.
Qed.

(** Equal infinite prices: the risk per share is NaN, and [int] of the
    quotient raises. *)
Lemma calculate_position_size_infinite self sym sgn risk_amount :
  calculate_position_size self sym (Inf sgn) (Inf sgn) risk_amount
  = inl (ValueError "cannot convert float NaN to integer").
Proof.
  unfold calculate_position_size.
  destruct (risk_amount_returns self risk_amount) as [ra ->].
  cbn [mbind res_bind]. cbv zeta.
  assert (E : abs (sub (Inf sgn) (Inf sgn)) = NaN) by now destruct sgn.
  rewrite E. cbn [Float.eqb]. unfold truediv. cbn [Float.eqb].
  cbn [mbind mret res_bind res_ret].
  now destruct ra.
Qed.

(** X21: [calculate_position_size] at equal prices and its limits.  With
    equal finite entry and stop it returns 0, whatever the minimum
    position size; with equal infinite prices it raises [ValueError]
    ([int] of NaN).  A size it returns is 0 when [entry == stop], and
    otherwise at least [min_position_size] and, when a non-zero
    [max_position_size] is set, at most the larger of the two limits. *)
Theorem calculate_position_size_limits self sym entry stop risk_amount :
  (forall e s, entry = Fin e -> stop = Fin s -> (e == s)%Q ->
     calculate_position_size self sym entry stop risk_amount = inr 0)
  /\ (forall sgn, entry = Inf sgn -> stop = Inf sgn ->
        calculate_position_size self sym entry stop risk_amount
        = inl (ValueError "cannot convert float NaN to integer"))
  /\ (forall n,
        calculate_position_size self sym entry stop risk_amount = inr n ->
        (Float.eqb entry stop = true -> n = 0)
        /\ (Float.eqb entry stop = false ->
            min_position_size self <= n
            /\ forall m, truthy_int (max_position_size self) = Some m ->
                         n <= Z.max m (min_position_size self))).
Proof.
  assert (Hzero : (exists e s, entry = Fin e /\ stop = Fin s /\ (e == s)%Q) ->
                  calculate_position_size self sym entry stop risk_amount
                  = inr 0).
  { intros Heq. apply risk_zero_iff in Heq.
    unfold calculate_position_size.
    destruct (risk_amount_returns self risk_amount) as [ra ->].
    cbn [mbind res_bind]. cbv zeta. now rewrite Heq. }
  split; [|split].
  - intros e s He Hs E. apply Hzero. eauto.
  - intros sgn -> ->. apply calculate_position_size_infinite.
  - intros n H. split.
    + intros Heq. apply eqb_finite_equal in Heq as [Hfin | (sgn & -> & ->)].
      * rewrite (Hzero Hfin) in H. now injection H.
      * rewrite calculate_position_size_infinite in H. discriminate.
    + intros Hne. apply eqb_false_not_equal in Hne.
      unfold calculate_position_size in H.
      apply res_bind_inr in H as (ra & _ & H).
      cbv zeta in H.
      destruct (Float.eqb (abs (sub entry stop)) (Fin 0)) eqn:E.
      { apply risk_zero_iff in E. contradiction. }
      apply res_bind_inr in H as (q & _ & H).
      apply res_bind_inr in H as (k & _ & H).
      injection H as <-.
      destruct (truthy_int (max_position_size self)) as [m|]; split;
        try lia; intros m' Hm; [injection Hm as <-; lia | discriminate].
Qed.

Lemma calculate_position_size_limits_witness :
  calculate_position_size (new_validator (Fin 100000)) "AAPL"
    (Fin 150) (Fin (300 # 2)) None = inr 0
  /\ min_position_size (new_validator (Fin 100000)) <= 500.
Proof.
  split.
  - apply (calculate_position_size_limits (new_validator (Fin 100000))
             "AAPL" (Fin 150) (Fin (300 # 2)) None) with (e := 150%Q)
                                                         (s := (300 # 2)%Q);
      reflexivity.
  - apply (calculate_position_size_limits (new_validator (Fin 100000))
             "AAPL" (Fin 150) (Fin 148) None);
      vm_compute; reflexivity.
Defined.

(** ** Tracked positions *)

(** X22: tracking is a map from symbol to risk: adding a symbol that is
    not tracked and removing it again gives back the validator;
    [remove_position] and [update_position_risk] of a symbol that is not
    tracked change nothing, so an update never starts tracking a symbol;
    an update of a tracked symbol is [add_position]. *)
Theorem position_tracking self sym (risk : float) :
  (_current_positions self !! sym = None ->
   remove_position (add_position self sym risk) sym = self
   /\ remove_position self sym = self
   /\ update_position_risk self sym risk = self)
  /\ (is_Some (_current_positions self !! sym) ->
      update_position_risk self sym risk = add_position self sym risk)
  /\ get_current_positions (add_position self sym risk) !! sym = Some risk
  /\ get_current_positions (remove_position self sym) !! sym = None
  /\ (forall other, other <> sym ->
        get_current_positions (add_position self sym risk) !! other
        = get_current_positions self !! other
        /\ get_current_positions (remove_position self sym) !! other
           = get_current_positions self !! other).
Proof.
  split; [|split; [|split; [|split]]].
  - intros Hnone. split; [|split].
    + unfold remove_position, add_position. cbn [_current_positions with_positions].
      rewrite lookup_insert_eq.
      rewrite bool_decide_eq_true_2 by eauto.
      destruct self. unfold with_positions. cbn in *.
      f_equal. rewrite delete_insert_eq. now apply delete_id.
    + unfold remove_position. rewrite Hnone.
      now rewrite bool_decide_eq_false_2 by (intros [? ?]; discriminate).
    + unfold update_position_risk. rewrite Hnone.
      now rewrite bool_decide_eq_false_2 by (intros [? ?]; discriminate).
  - intros Hsome. unfold update_position_risk, add_position.
    now rewrite bool_decide_eq_true_2 by exact Hsome.
  - unfold get_current_positions, add_position. cbn [_current_positions with_positions].
    apply lookup_insert_eq.
  - unfold get_current_positions, remove_position.
    case_bool_decide as Hs.
    + cbn [_current_positions with_positions]. apply lookup_delete_eq.
    + now apply eq_None_not_Some.
  - intros other Hne. unfold get_current_positions, add_position, remove_position.
    split.
    + cbn [_current_positions with_positions]. now apply lookup_insert_ne.
    + case_bool_decide; [|reflexivity].
      cbn [_current_positions with_positions]. now apply lookup_delete_ne.
Qed.

(** ** What an approval guarantees *)

(** No rejection: every check passed. *)
Lemma rejections_of_nil self p rp sd tp pv :
  rejections_of self p rp sd tp pv = [] ->
  String.eqb (symbol p) "" = false
  /\ not_allowed self p = false
  /\ (quantity p <? min_position_size self) = false
  /\ too_large self p = false
  /\ buy_stop_wrong p = false
  /\ sell_stop_wrong p = false
  /\ too_many self p = false.
Proof.
  intros Hnil.
  assert (Hno : forall r, ~ r ∈ rejections_of self p rp sd tp pv)
    by (intros r; rewrite Hnil; apply not_elem_of_nil).
  repeat split;
    match goal with
    | |- ?c = false =>
        destruct c eqn:E; [exfalso | reflexivity]
    end.
  - apply (Hno SYMBOL_INVALID), elem_of_rejections_of. tauto.
  - apply (Hno SYMBOL_NOT_ALLOWED), elem_of_rejections_of. tauto.
  - apply (Hno POSITION_SIZE_TOO_SMALL), elem_of_rejections_of. tauto.
  - apply (Hno POSITION_SIZE_TOO_LARGE), elem_of_rejections_of. tauto.
  - apply (Hno STOP_LOSS_INVALID), elem_of_rejections_of. tauto.
  - apply (Hno STOP_LOSS_INVALID), elem_of_rejections_of. tauto.
  - apply (Hno MAX_POSITION_COUNT_EXCEEDED), elem_of_rejections_of. tauto.
Qed.

(** X24: what an approval guarantees of the inputs, through the checks
    that compare them without arithmetic: the symbol is not empty and is in
    a non-empty [allowed_symbols]; the quantity is at least
    [min_position_size] and at most a non-zero [max_position_size]; the
    stop of a BUY is not at or above its entry and the stop of a SELL not
    at or below it, so finite prices are strictly ordered; and the
    validator tracks fewer than [max_positions] symbols or tracks this
    one already. *)
Theorem approved_input_checks self p rep :
  validate self p = inr rep -> approved rep = true ->
  symbol p <> ""%string
  /\ (forall allowed, truthy_list (allowed_symbols self) = Some allowed ->
        symbol p ∈ allowed)
  /\ min_position_size self <= quantity p
  /\ (forall m, truthy_int (max_position_size self) = Some m ->
        quantity p <= m)
  /\ (side p = "BUY"%string ->
      Float.ge (stop_loss p) (entry_price p) = false)
  /\ (side p = "SELL"%string ->
      Float.le (stop_loss p) (entry_price p) = false)
  /\ (forall e s, entry_price p = Fin e -> stop_loss p = Fin s ->
        (side p = "BUY"%string -> (s < e)%Q)
        /\ (side p = "SELL"%string -> (e < s)%Q))
  /\ (Z.of_nat (size (_current_positions self)) < max_positions self
      \/ is_Some (_current_positions self !! symbol p)).
Proof.
  intros Hv Happ.
  destruct (validate_inr self p rep Hv)
    as (tr & rp & pv & q1 & q2 & _ & _ & _ & _ & _ & _ & _ & Hrej & _ & Hres).
  assert (Hnil : rejections rep = []).
  { destruct (rejections rep); [reflexivity|].
    cbn in Hres. injection Hres as _ Hf. congruence. }
  rewrite Hnil in Hrej. symmetry in Hrej.
  apply rejections_of_nil in Hrej
    as (Hsym & Hallow & Hqty & Hlarge & Hbuy & Hsell & Hmany).
  destruct (effective_fields self p) as (Esym & Eside & Eqty & Eentry & Estop).
  unfold not_allowed, too_large, buy_stop_wrong, sell_stop_wrong, too_many
    in *.
  rewrite ?Esym, ?Eside, ?Eqty, ?Eentry, ?Estop in *.
  assert (Hb : side p = "BUY"%string ->
               Float.ge (stop_loss p) (entry_price p) = false).
  { intros E. rewrite E in Hbuy. exact Hbuy. }
  assert (Hs : side p = "SELL"%string ->
               Float.le (stop_loss p) (entry_price p) = false).
  { intros E. rewrite E in Hsell. exact Hsell. }
  split; [now apply String.eqb_neq|].
  split.
  { intros allowed Ha. rewrite Ha in Hallow.
    apply negb_false_iff, bool_decide_eq_true in Hallow. exact Hallow. }
  split; [now apply Z.ltb_ge in Hqty|].
  split.
  { intros m Hm. rewrite Hm in Hlarge. now apply Z.ltb_ge in Hlarge. }
  split; [exact Hb|]. split; [exact Hs|].
  split.
  { intros e s He Hst. rewrite He, Hst in Hb, Hs. unfold Float.ge in Hb.
    cbn [Float.le] in Hb, Hs.
    split; intros E; [apply Hb in E | apply Hs in E];
      now apply Qle_bool_false_iff in E. }
  apply andb_false_iff in Hmany as [Hcount | Htracked].
  - left. now apply Z.leb_gt in Hcount.
  - right. apply negb_false_iff, bool_decide_eq_true in Htracked.
    exact Htracked.
Qed.

Lemma approved_input_checks_witness :
  symbol aapl_buy <> ""%string
  /\ min_position_size (new_validator (Fin 100000)) <= quantity aapl_buy
  /\ (148 < 150)%Q.
Proof.
  destruct (approved_input_checks (new_validator (Fin 100000)) aapl_buy
              {| result := APPROVED; approved := true;
                 report_symbol := "AAPL";
                 proposal := effective (new_validator (Fin 100000)) aapl_buy;
                 rejections := []; warnings := [];
                 risk_metrics :=
                   match validate (new_validator (Fin 100000)) aapl_buy with
                   | inr rep => risk_metrics rep
                   | inl _ => ∅
                   end |})
    as (Hsym & _ & Hmin & _ & _ & _ & Horder & _).
  - vm_compute. reflexivity.
  - reflexivity.
  - split; [exact Hsym|]. split; [exact Hmin|].
    now apply (Horder 150%Q 148%Q).
Defined.

(** ** A stop that is not a number *)

Lemma lt_NaN_l (x : float) : Float.lt NaN x = false.
Proof. reflexivity. Qed.

Lemma lt_NaN_r (x : float) : Float.lt x NaN = false.
Proof. now destruct x as [|[|]|q]. Qed.

Lemma mul_NaN_l (x : float) : mul NaN x = NaN.
Proof. reflexivity. Qed.

Lemma add_NaN_r (x : float) : add x NaN = NaN.
Proof. now destruct x. Qed.

Lemma truediv_NaN (x q : float) : truediv NaN x = inr q -> q = NaN.
Proof.
  unfold truediv. destruct (Float.eqb x (Fin 0)); [discriminate|].
  cbn. now intros [= <-].
Qed.

(** The risk per share of a proposal whose stop is NaN. *)
Lemma risk_per_share_NaN (p : TradeProposal) :
  stop_loss p = NaN -> risk_per_share p = NaN.
Proof.
  intros Hs. unfold risk_per_share. rewrite Hs.
  destruct (String.eqb (side p) "BUY"); now destruct (entry_price p).
Qed.

(** X26: [validate] does not catch a stop loss that is NaN: on a positive
    account it gives none of the stop or risk rejections for such a
    proposal, every comparison with the NaN risk being false. *)
Theorem validate_nan_stop self p rep :
  stop_loss p = NaN ->
  Float.lt (Fin 0) (account_size (effective self p)) = true ->
  validate self p = inr rep ->
  forall r, r ∈ rejections rep ->
    r <> STOP_LOSS_INVALID /\ r <> STOP_LOSS_TOO_TIGHT
    /\ r <> STOP_LOSS_TOO_WIDE /\ r <> RISK_PER_TRADE_EXCEEDED
    /\ r <> TOTAL_PORTFOLIO_RISK_EXCEEDED.
Proof.
  intros Hstop Hacct Hv r Hr.
  destruct (validate_inr self p rep Hv)
    as (tr & rp & pv & q1 & q2 & Htr & Hrp & _ & Hq1 & Hq2 & _ & _
        & Hrej & _).
  destruct (effective_fields self p) as (_ & _ & _ & Eentry & Estop).
  assert (Hrps : risk_per_share (effective self p) = NaN)
    by (apply risk_per_share_NaN; congruence).
  assert (Etr : tr = NaN).
  { unfold total_risk in Htr. rewrite Hrps in Htr.
    apply res_bind_inr in Htr as (q & _ & Htr). now injection Htr as <-. }
  assert (Erp : rp = NaN).
  { unfold risk_percent in Hrp. rewrite Hacct in Hrp.
    apply res_bind_inr in Hrp as (t & Ht & Hrp).
    rewrite Htr in Ht. injection Ht as <-. rewrite Etr in Hrp.
    apply res_bind_inr in Hrp as (q & Hq & Hrp).
    apply truediv_NaN in Hq as ->. now injection Hrp as <-. }
  rewrite Hrps in Hq1. apply truediv_NaN in Hq1 as ->.
  rewrite Etr, add_NaN_r in Hq2. apply truediv_NaN in Hq2 as ->.
  rewrite Erp in Hrej. rewrite Hrej in Hr.
  apply elem_of_rejections_of in Hr.
  unfold buy_stop_wrong, sell_stop_wrong, Float.ge in Hr.
  rewrite Estop, Hstop in Hr. rewrite !mul_NaN_l in Hr.
  rewrite !lt_NaN_l, !lt_NaN_r in Hr.
  rewrite le_NaN_l, le_NaN_r in Hr.
  rewrite !andb_false_r in Hr.
  repeat destruct Hr as [[Hc ->] | Hr]; try destruct Hr as [Hc ->];
    try discriminate Hc; repeat split; discriminate.
Qed.

(** The docstring's order with a NaN stop passes [__post_init__] and is
    approved. *)
Lemma validate_nan_stop_witness :
  post_init nan_stop_buy = inr tt
  /\ exists rep,
       validate (new_validator (Fin 100000)) nan_stop_buy = inr rep
       /\ approved rep = true
       /\ forall r, r ∈ rejections rep -> r <> STOP_LOSS_INVALID.
Proof.
  split; [reflexivity|].
  eexists. split; [vm_compute; reflexivity|].
  split; [reflexivity|].
  intros r Hr.
  match type of Hr with
  | _ ∈ rejections ?rep =>
      apply (validate_nan_stop (new_validator (Fin 100000)) nan_stop_buy rep)
        with (r := r)
  end.
  - reflexivity.
  - reflexivity.
  - vm_compute. reflexivity.
  - exact Hr.
Defined.

(** ** The account size written into the proposal *)

Lemma validate_risk_percent_metric self p rep :
  validate self p = inr rep ->
  exists rp, risk_percent (effective self p) = inr rp
             /\ risk_metrics rep !! "risk_percent"%string = Some (FloatNum rp).
Proof.
  unfold validate. fold (effective self p). cbv zeta.
  intros H.
  apply res_bind_inr in H as (tr & _ & H).
  apply res_bind_inr in H as (rp & Hrp & H).
  apply res_bind_inr in H as (pv & _ & H).
  apply res_bind_inr in H as (q1 & _ & H).
  apply res_bind_inr in H as (q2 & _ & H).
  exists rp. split; [exact Hrp|].
  match type of H with
  | (let '(_, _) := ?c in _) = _ => destruct c as [res0 app0]
  end.
  injection H as <-. cbn [risk_metrics].
  unfold set_if.
  repeat match goal with
         | |- context [if ?c then _ else _] => destruct c
         end;
    repeat (rewrite lookup_insert_ne by done);
    apply lookup_insert_eq.
Qed.

Lemma effective_account_size self p rep :
  validate self p = inr rep ->
  Float.eqb (account_size (effective self p)) (Fin 0) = false.
Proof.
  intros H.
  destruct (validate_inr self p rep H)
    as (tr & rp & pv & q1 & q2 & _ & _ & _ & _ & Hq2 & _).
  unfold effective.
  destruct (Float.eqb (account_size p) (Fin 0)) eqn:E; [|exact E].
  cbn [set_account_size account_size].
  unfold truediv in Hq2.
  destruct (Float.eqb (validator_account_size self) (Fin 0));
    [discriminate | reflexivity].
Qed.

(** X25: [validate] writes the validator's account size into a proposal
    that has none, and the report holds that same proposal.  The size
    sticks: a later [validate] of the proposal, by any validator, leaves
    it as it is and reports the risk percentage of the first call, which
    is relative to the first validator's account. *)
Theorem validate_account_size_sticks self other p rep rep' :
  validate self p = inr rep ->
  validate other (proposal rep) = inr rep' ->
  proposal rep' = proposal rep
  /\ (is_zero (account_size p) ->
      account_size (proposal rep') = validator_account_size self)
  /\ risk_metrics rep' !! "risk_percent"%string
     = risk_metrics rep !! "risk_percent"%string.
Proof.
  intros H H'.
  destruct (validate_inr self p rep H)
    as (_ & _ & _ & _ & _ & _ & _ & _ & _ & _ & Hp & _).
  destruct (validate_inr other _ rep' H')
    as (_ & _ & _ & _ & _ & _ & _ & _ & _ & _ & Hp' & _).
  pose proof (effective_account_size self p rep H) as Hnz.
  assert (Heff : effective other (proposal rep) = proposal rep).
  { unfold effective at 1. rewrite Hp at 1. now rewrite Hnz. }
  split; [congruence|]. split.
  - intros Hz. rewrite Hp', Heff, Hp. unfold effective. now rewrite Hz.
  - destruct (validate_risk_percent_metric self p rep H) as (rp & Hrp & ->).
    destruct (validate_risk_percent_metric other _ rep' H')
      as (rp' & Hrp' & ->).
    rewrite Heff, Hp in Hrp'. congruence.
Qed.

Lemma validate_account_size_sticks_witness :
  exists rep rep',
    validate (new_validator (Fin 100000)) aapl_buy = inr rep
    /\ validate (new_validator (Fin 50000)) (proposal rep) = inr rep'
    /\ account_size (proposal rep') = Fin 100000
    /\ risk_metrics rep' !! "risk_percent"%string
       = risk_metrics rep !! "risk_percent"%string.
Proof.
  eexists. eexists.
  split; [vm_compute; reflexivity|].
  split; [vm_compute; reflexivity|].
  match goal with
  | |- account_size (proposal ?r') = _ /\ _ !! _ = risk_metrics ?r !! _ =>
      destruct (validate_account_size_sticks (new_validator (Fin 100000))
                  (new_validator (Fin 50000)) aapl_buy r r')
        as (_ & Hacct & Hrisk)
  end.
  - vm_compute. reflexivity.
  - vm_compute. reflexivity.
  - split; [apply Hacct; reflexivity | exact Hrisk].
Defined.

End ValidatorFacts.
